(** * ConfigManager.get: the cached fetch of the prompt configuration

    A shallow embedding of the browser-extension helper [ConfigManager]
    (a single asynchronous method [get]) together with the three
    collaborators it talks to: [chrome.storage.local], [fetch] and
    [Date.now].  The method is awaited step by step, so it is modelled as
    a computation in a state-and-exception monad over a [World] that holds
    the store, the clock, the scripted behaviour of the collaborators and
    the trace of what has been done. *)

From stdpp Require Import base option list strings gmap pretty.
From Stdlib Require Import ZArith Lia Ascii.

Local Open Scope Z_scope.
Set Warnings "-register-all".

(** ** Values *)

(** What [JSON.parse] can produce and [chrome.storage] can hold.  Numbers
    are the integral ones: the only arithmetic of the program is on
    millisecond clock readings, which are integers and exact. *)
Inductive Json : Type :=
| JNull
| JBool (b : bool)
| JNum (n : Z)
| JStr (s : string)
| JArr (items : list Json)
| JObj (fields : list (string * Json)).

(** A JavaScript value as the method sees it: [None] is [undefined],
    which is what reading a missing property gives. *)
Definition JsVal : Type := option Json.

Definition undefined : JsVal := None.

(** ToBoolean, as applied by [&&]. *)
Definition json_truthy (v : Json) : bool :=
  match v with
  | JNull => false
  | JBool b => b
  | JNum n => negb (n =? 0)
  | JStr s => negb (String.eqb s EmptyString)
  | JArr _ | JObj _ => true
  end.

Definition truthy (v : JsVal) : bool :=
  match v with
  | Some j => json_truthy j
  | None => false
  end.

Inductive JsError : Type :=
| MkError (name message : string).

(** ** The constants of the module *)

Definition GITHUB_PROMPTS_URL : string :=
  "https://raw.githubusercontent.com/glidea/banana-prompt-quicker/main/config.json".
Definition CACHE_KEY : string := "config_cache".
Definition CACHE_TIMESTAMP_KEY : string := "config_cache_time".
Definition CACHE_DURATION : Z := 2 * 60 * 1000.

(** ** The world *)

(** An HTTP response: its status, and what [response.json()] will do:
    take [body_delay] milliseconds and then give the parsed body, or
    reject when the body is not JSON ([None]). *)
Record Response : Type := mkResponse {
  status : Z;
  body_delay : Z;
  body : option Json
}.

(** [response.ok] *)
Definition ok (r : Response) : bool :=
  (200 <=? status r) && (status r <=? 299).

(** How the network answers one [fetch]: the promise rejects (transport
    error) or resolves to a response, after [delay] milliseconds. *)
Inductive FetchReply : Type :=
| NetworkDown (delay : Z)
| Responds (delay : Z) (r : Response).

(** How [chrome.storage.local] answers one call. *)
Inductive StorageReply : Type :=
| StorageOk (delay : Z)
| StorageFails (delay : Z).

Inductive Event : Type :=
| EStorageGet (keys : list string)
| EDateNow (t : Z)
| EFetch (url : string)
| EJson
| EStorageSet (entries : list (string * Json))
| EConsoleError (msg : string) (e : JsError).

Record World : Type := mkWorld {
  storage : gmap string Json;          (* chrome.storage.local *)
  clock : Z;                           (* what Date.now() reads, in ms *)
  storage_script : list StorageReply;  (* answers to the next storage calls *)
  network_script : list FetchReply;    (* answers to the next fetches *)
  trace : list Event                   (* what was done, oldest first *)
}.

Definition set_storage (s : gmap string Json) (w : World) : World :=
  mkWorld s (clock w) (storage_script w) (network_script w) (trace w).
Definition set_clock (c : Z) (w : World) : World :=
  mkWorld (storage w) c (storage_script w) (network_script w) (trace w).
Definition set_storage_script (l : list StorageReply) (w : World) : World :=
  mkWorld (storage w) (clock w) l (network_script w) (trace w).
Definition set_network_script (l : list FetchReply) (w : World) : World :=
  mkWorld (storage w) (clock w) (storage_script w) l (trace w).
Definition set_trace (t : list Event) (w : World) : World :=
  mkWorld (storage w) (clock w) (storage_script w) (network_script w) t.

(** ** The monad of awaited steps *)

Inductive Completion (A : Type) : Type :=
| Normal (a : A)
| Throw (e : JsError).
Arguments Normal {A} a.
Arguments Throw {A} e.

Definition Js (A : Type) : Type := World -> Completion A * World.

#[export] Instance Js_ret : MRet Js := fun A a w => (Normal a, w).

#[export] Instance Js_bind : MBind Js := fun A B k m w =>
  match m w with
  | (Normal a, w') => k a w'
  | (Throw e, w') => (Throw e, w')
  end.

Definition throw {A : Type} (e : JsError) : Js A := fun w => (Throw e, w).

(** [try { body } catch (error) { handler }] *)
Definition try_catch {A : Type} (body : Js A) (handler : JsError -> Js A) : Js A :=
  fun w =>
    match body w with
    | (Normal a, w') => (Normal a, w')
    | (Throw e, w') => handler e w'
    end.

Definition gets {A : Type} (f : World -> A) : Js A := fun w => (Normal (f w), w).

Definition modify (f : World -> World) : Js unit := fun w => (Normal (), f w).

Definition emit (ev : Event) : Js unit :=
  modify (fun w => set_trace (trace w ++ [ev]) w).

(** Time passes while a promise is awaited. *)
Definition sleep (d : Z) : Js unit :=
  modify (fun w => set_clock (clock w + d) w).

(** The answer to the next storage call; an exhausted script means a
    store that works at once. *)
Definition next_storage (w : World) : StorageReply :=
  hd (StorageOk 0) (storage_script w).

Definition next_storage_reply : Js StorageReply :=
  fun w => (Normal (next_storage w), set_storage_script (tl (storage_script w)) w).

(** The answer to the next fetch; an exhausted script means an
    unreachable network. *)
Definition next_fetch (w : World) : FetchReply :=
  hd (NetworkDown 0) (network_script w).

Definition next_fetch_reply : Js FetchReply :=
  fun w => (Normal (next_fetch w), set_network_script (tl (network_script w)) w).

(** ** The collaborators *)

Definition storage_error : JsError := MkError "Error" "storage unavailable".
Definition fetch_error : JsError := MkError "TypeError" "Failed to fetch".
Definition json_error : JsError := MkError "SyntaxError" "Unexpected token".

(** The object a storage read resolves to: the requested keys that are
    present, and nothing for the others. *)
Definition pick (keys : list string) (s : gmap string Json) : gmap string Json :=
  filter (fun kv => kv.1 ∈ keys) s.

(** [chrome.storage.local.get(keys)] *)
Definition storage_local_get (keys : list string) : Js (gmap string Json) :=
  emit (EStorageGet keys);;
  r ← next_storage_reply;
  match r with
  | StorageOk d => sleep d;; gets (fun w => pick keys (storage w))
  | StorageFails d => sleep d;; throw storage_error
  end.

(** The store after the entries of one write are put in it. *)
Definition write (entries : list (string * Json)) (s : gmap string Json) : gmap string Json :=
  foldl (fun acc kv => <[kv.1 := kv.2]> acc) s entries.

(** [chrome.storage.local.set(entries)]: all the entries in one call. *)
Definition storage_local_set (entries : list (string * Json)) : Js unit :=
  emit (EStorageSet entries);;
  r ← next_storage_reply;
  match r with
  | StorageOk d =>
      sleep d;;
      modify (fun w => set_storage (write entries (storage w)) w)
  | StorageFails d => sleep d;; throw storage_error
  end.

(** [Date.now()] *)
Definition date_now : Js Z :=
  t ← gets clock;
  emit (EDateNow t);;
  mret t.

(** [fetch(url)] *)
Definition fetch (url : string) : Js Response :=
  emit (EFetch url);;
  r ← next_fetch_reply;
  match r with
  | NetworkDown d => sleep d;; throw fetch_error
  | Responds d resp => sleep d;; mret resp
  end.

(** [response.json()] *)
Definition json (r : Response) : Js Json :=
  emit EJson;;
  sleep (body_delay r);;
  match body r with
  | Some v => mret v
  | None => throw json_error
  end.

(** [console.error(msg, error)] *)
Definition console_error (msg : string) (e : JsError) : Js unit :=
  emit (EConsoleError msg e).

(** [cache[key]] *)
Definition prop (cache : gmap string Json) (key : string) : JsVal := cache !! key.

Section Get.

(** The truth value of [now - t < d] when [t] is a string, an array or an
    object: ToNumber on those is the language's business and no statement
    below depends on it (the method itself only stores numbers under the
    timestamp key), so it is left open. *)
Variable coerced_sub_lt : Z -> Json -> Z -> bool.

(** [now - t < d] for a clock reading [now] and a value [t] read from the
    store.  ToNumber(undefined) is NaN, and every comparison with NaN is
    false; ToNumber(null) is 0, ToNumber(true) is 1. *)
Definition sub_lt (now : Z) (t : JsVal) (d : Z) : bool :=
  match t with
  | None => false
  | Some JNull => now - 0 <? d
  | Some (JBool b) => now - (if b then 1 else 0) <? d
  | Some (JNum n) => now - n <? d
  | Some j => coerced_sub_lt now j d
  end.

(** [ConfigManager.get] *)
Definition get : Js JsVal :=
  try_catch
    ((* 1. Check cache *)
     cache ← storage_local_get [CACHE_KEY; CACHE_TIMESTAMP_KEY];
     let cachedPrompts := prop cache CACHE_KEY in
     let cacheTime := prop cache CACHE_TIMESTAMP_KEY in
     now ← date_now;
     if truthy cachedPrompts && truthy cacheTime && sub_lt now cacheTime CACHE_DURATION
     then mret cachedPrompts
     else
       (* 2. Fetch from GitHub *)
       response ← fetch GITHUB_PROMPTS_URL;
       if negb (ok response)
       then throw (MkError "Error" ("HTTP error! status: " +:+ pretty (status response)))
       else
         data ← json response;
         (* 3. Update cache *)
         storage_local_set [(CACHE_KEY, data); (CACHE_TIMESTAMP_KEY, JNum now)];;
         mret (Some data))
    (fun error =>
       console_error "Failed to fetch prompts:" error;;
       (* 4. Fallback to cache if available (even if expired) *)
       cache ← storage_local_get [CACHE_KEY];
       mret (prop cache CACHE_KEY)).

End Get.


(** ** Worlds the statements speak about *)

(** The hit test of step 1, on the store itself. *)
Definition fresh (cf : Z -> Json -> Z -> bool) (s : gmap string Json) (now : Z) : bool :=
  truthy (s !! CACHE_KEY) && truthy (s !! CACHE_TIMESTAMP_KEY)
  && sub_lt cf now (s !! CACHE_TIMESTAMP_KEY) CACHE_DURATION.

Definition storage_works (r : StorageReply) : bool :=
  match r with StorageOk _ => true | StorageFails _ => false end.

Definition storage_delay (r : StorageReply) : Z :=
  match r with StorageOk d | StorageFails d => d end.

(** Every storage call that is still to come succeeds. *)
Definition reliable (w : World) : bool := forallb storage_works (storage_script w).

(** No awaited step makes the clock run backwards. *)
Definition monotone (w : World) : bool :=
  forallb (fun r => 0 <=? storage_delay r) (storage_script w)
  && forallb (fun r => match r with
                       | NetworkDown d => 0 <=? d
                       | Responds d resp => (0 <=? d) && (0 <=? body_delay resp)
                       end) (network_script w).

(** The clock value that [get] will sample: the clock when the first
    storage read has resolved. *)
Definition sampled (w : World) : Z := clock w + storage_delay (next_storage w).

(** What a fetch brings back when the transport, the status check and
    the parse all succeed. *)
Definition fetched (r : FetchReply) : option Json :=
  match r with
  | NetworkDown _ => None
  | Responds _ resp => if ok resp then body resp else None
  end.

Fixpoint fetches (t : list Event) : nat :=
  match t with
  | [] => 0%nat
  | EFetch _ :: t' => S (fetches t')
  | _ :: t' => fetches t'
  end.

Fixpoint writes (t : list Event) : list (list (string * Json)) :=
  match t with
  | [] => []
  | EStorageSet entries :: t' => entries :: writes t'
  | _ :: t' => writes t'
  end.

(** ** The worlds a call goes through *)

Definition after_storage (d : Z) (ev : Event) (w : World) : World :=
  mkWorld (storage w) (clock w + d) (tail (storage_script w)) (network_script w)
          (trace w ++ [ev]).

Definition after_fetch (d : Z) (url : string) (w : World) : World :=
  mkWorld (storage w) (clock w + d) (storage_script w) (tail (network_script w))
          (trace w ++ [EFetch url]).

Definition logged (ev : Event) (w : World) : World :=
  set_trace (trace w ++ [ev]) w.

(** The catch block, on its own. *)
Definition recover (error : JsError) : Js JsVal :=
  console_error "Failed to fetch prompts:" error;;
  cache ← storage_local_get [CACHE_KEY];
  mret (prop cache CACHE_KEY).

(** The world when step 1 is over: the cache was read and the clock
    sampled. *)
Definition checked (w : World) : World :=
  mkWorld (storage w) (sampled w) (tail (storage_script w)) (network_script w)
          (trace w ++ [EStorageGet [CACHE_KEY; CACHE_TIMESTAMP_KEY]; EDateNow (sampled w)]).

(** The error a fetch that brings nothing back ends in, the time it took
    and whether the body was asked for. *)
Definition failure (r : FetchReply) : JsError :=
  match r with
  | NetworkDown _ => fetch_error
  | Responds _ resp =>
      if ok resp then json_error
      else MkError "Error" ("HTTP error! status: " +:+ pretty (status resp))
  end.

Definition attempt_delay (r : FetchReply) : Z :=
  match r with
  | NetworkDown d => d
  | Responds d resp => if ok resp then d + body_delay resp else d
  end.

Definition attempt_events (r : FetchReply) : list Event :=
  match r with
  | NetworkDown _ => [EFetch GITHUB_PROMPTS_URL]
  | Responds _ resp =>
      if ok resp then [EFetch GITHUB_PROMPTS_URL; EJson] else [EFetch GITHUB_PROMPTS_URL]
  end.

(** The world when step 2 is over, whatever came of it. *)
Definition attempted (w : World) : World :=
  mkWorld (storage w) (sampled w + attempt_delay (next_fetch w))
          (tail (storage_script w)) (tail (network_script w))
          (trace w ++ [EStorageGet [CACHE_KEY; CACHE_TIMESTAMP_KEY]; EDateNow (sampled w)]
                   ++ attempt_events (next_fetch w)).

(** The entries step 3 writes. *)
Definition cache_entries (data : Json) (now : Z) : list (string * Json) :=
  [(CACHE_KEY, data); (CACHE_TIMESTAMP_KEY, JNum now)].

(** The world when the write of step 3 was tried. *)
Definition write_tried (data : Json) (w : World) : World :=
  after_storage (storage_delay (next_storage (attempted w)))
                (EStorageSet (cache_entries data (sampled w))) (attempted w).

(** The world when the catch block is over. *)
Definition recovered (e : JsError) (w : World) : World :=
  after_storage (storage_delay (next_storage w)) (EStorageGet [CACHE_KEY])
                (logged (EConsoleError "Failed to fetch prompts:" e) w).

(** The world when a fetch has brought [data] back and it was stored. *)
Definition refreshed (data : Json) (w : World) : World :=
  set_storage (write (cache_entries data (sampled w)) (storage w)) (write_tried data w).


(** The five ways through [get], by what the collaborators answer: the
    first read fails; the cache is fresh; the fetch brings nothing back;
    the fetched payload is stored; the fetched payload cannot be stored. *)
Inductive get_path (cf : Z -> Json -> Z -> bool) (w : World) :
  Completion JsVal * World -> Prop :=
| path_read_fails d :
    next_storage w = StorageFails d ->
    get_path cf w
      (recover storage_error
         (after_storage d (EStorageGet [CACHE_KEY; CACHE_TIMESTAMP_KEY]) w))
| path_hit d :
    next_storage w = StorageOk d ->
    fresh cf (storage w) (sampled w) = true ->
    get_path cf w (Normal (storage w !! CACHE_KEY), checked w)
| path_fetch_fails d :
    next_storage w = StorageOk d ->
    fresh cf (storage w) (sampled w) = false ->
    fetched (next_fetch w) = None ->
    get_path cf w (recover (failure (next_fetch w)) (attempted w))
| path_stored d data d2 :
    next_storage w = StorageOk d ->
    fresh cf (storage w) (sampled w) = false ->
    fetched (next_fetch w) = Some data ->
    next_storage (attempted w) = StorageOk d2 ->
    get_path cf w (Normal (Some data), refreshed data w)
| path_store_fails d data d2 :
    next_storage w = StorageOk d ->
    fresh cf (storage w) (sampled w) = false ->
    fetched (next_fetch w) = Some data ->
    next_storage (attempted w) = StorageFails d2 ->
    get_path cf w (recover storage_error (write_tried data w)).

(** ** Example worlds *)

Definition a1 : Json := JObj [("a"%string, JNum 1)].
Definition b2 : Json := JObj [("b"%string, JNum 2)].

(** A store that holds payload [P], written at time [T]. *)
Definition holding (P : Json) (T : Z) : gmap string Json :=
  <[CACHE_TIMESTAMP_KEY := JNum T]> (<[CACHE_KEY := P]> ∅).

(** A world with a working store and nothing done so far. *)
Definition world_at (s : gmap string Json) (now : Z) (net : list FetchReply) : World :=
  mkWorld s now [] net [].

Definition serves (data : Json) : FetchReply := Responds 0 (mkResponse 200 0 (Some data)).

(** An instance for the examples, in which a string, array or object
    timestamp never counts as fresh. *)
Definition no_coercion : Z -> Json -> Z -> bool := fun _ _ _ => false.

(** Cache [{"a":1}] written at 0, call at 60000, network unreachable. *)
Definition scenario_fresh : World := world_at (holding a1 0) 60000 [].
(** Cache [{"a":1}] written at 0, call at 180000, network unreachable. *)
Definition scenario_stale : World := world_at (holding a1 0) 180000 [].
(** Cache empty, network unreachable. *)
Definition scenario_nothing : World := world_at ∅ 0 [].
(** Cache empty, the fetch gives [{"a":1}] after 4 s and the body after 1 s. *)
Definition scenario_slow : World :=
  world_at ∅ 1000 [Responds 4000 (mkResponse 200 1000 (Some a1))].
(** Cache [{"a":1}] written at 1000, call at 61000, the server has [{"b":2}]. *)
Definition scenario_warm : World := world_at (holding a1 1000) 61000 [serves b2].
(** Cache [null] written at 1000, call at 2000, the server has [{"a":1}]. *)
Definition scenario_null : World := world_at (holding JNull 1000) 2000 [serves a1].
(** Cache empty at 1000, the server has [null]. *)
Definition scenario_boot_null : World := world_at ∅ 1000 [serves JNull].
(** Cache [{"a":1}] written at 0, call at 180000, the server answers 500
    after 20 ms. *)
Definition scenario_http_500 : World :=
  world_at (holding a1 0) 180000 [Responds 20 (mkResponse 500 0 None)].
(** Both storage reads fail. *)
Definition scenario_broken_store : World :=
  mkWorld (holding a1 1000) 61000 [StorageFails 0; StorageFails 0] [] [].

(** Cache [{"a":1}] written at 1000 and expired; the server has
    [{"b":2}] but the write of it fails; the reads work. *)
Definition scenario_write_fails : World :=
  mkWorld (holding a1 1000) 200000 [StorageOk 0; StorageFails 0; StorageOk 0]
          [serves b2] [].
(** Cache [{"a":1}] written at 1000, call at 200000, long after the
    window; the store works and the server has [{"b":2}]. *)
Definition scenario_expired : World := world_at (holding a1 1000) 200000 [serves b2].
(** Cache [{"a":1}] written at 1000 and expired; the first read fails,
    the second works; the server has [{"b":2}]. *)
Definition scenario_read_fails : World :=
  mkWorld (holding a1 1000) 200000 [StorageFails 0] [serves b2] [].
(** A store with the payload and one entry of another feature, no
    timestamp; the server has [{"b":2}]. *)
Definition scenario_other_entry : World :=
  world_at (<["settings" := JBool true]> (<[CACHE_KEY := a1]> ∅)) 5000 [serves b2].

(** * compress_image.js: the image compressor

    The command-line script shrinks an image of the [images] directory
    under a size target by driving the macOS tool [sips].  The tool and
    the file system are outside the program: they are an [Os] over some
    type of disks, which answers command lines and file-system calls.
    The script is a computation over a [Machine] that holds the disk,
    the commands and file-system changes made so far and what was
    printed. *)

(** ** Text *)

(** The double quote and the line feed. *)
Definition dquote : string := String (ascii_of_nat 34) EmptyString.
Definition nl : string := String (ascii_of_nat 10) EmptyString.

Definition quoted (s : string) : string := dquote +:+ s +:+ dquote.

(** [\d] *)
Definition is_digit (a : ascii) : bool :=
  (48 <=? nat_of_ascii a)%nat && (nat_of_ascii a <=? 57)%nat.

(** The longest run of digits a string starts with: [\d*], greedy. *)
Fixpoint take_digits (s : string) : string :=
  match s with
  | String a s' => if is_digit a then String a (take_digits s') else EmptyString
  | EmptyString => EmptyString
  end.

Fixpoint strip_prefix (p s : string) : option string :=
  match p, s with
  | EmptyString, _ => Some s
  | String a p', String b s' => if Ascii.eqb a b then strip_prefix p' s' else None
  | String _ _, EmptyString => None
  end.

(** A match of [/label(\d+)/] that starts at the head of [s]: its group. *)
Definition digits_here (label s : string) : option string :=
  match strip_prefix label s with
  | Some rest =>
      match take_digits rest with
      | EmptyString => None
      | ds => Some ds
      end
  | None => None
  end.

(** [s.match(/label(\d+)/)]: the group of the leftmost match, [None]
    when the result is [null]. *)
Fixpoint capture_digits (label s : string) : option string :=
  match digits_here label s with
  | Some ds => Some ds
  | None =>
      match s with
      | EmptyString => None
      | String _ s' => capture_digits label s'
      end
  end.

Definition digit_value (a : ascii) : Z := Z.of_nat (nat_of_ascii a) - 48.

Fixpoint decimal_from (acc : Z) (s : string) : Z :=
  match s with
  | EmptyString => acc
  | String a s' => decimal_from (10 * acc + digit_value a) s'
  end.

(** [parseInt] on a string of decimal digits, which is what the group
    of [(\d+)] is. *)
Definition parseInt_digits (s : string) : Z := decimal_from 0 s.

Definition two_digits (k : Z) : string :=
  if k <? 10 then "0" +:+ pretty k else pretty k.

(** [(size / 1024).toFixed(2)] for a file size in bytes: the division by
    a power of two is exact, and [toFixed] rounds the hundredths half
    up. *)
Definition kb_fixed2 (size : Z) : string :=
  let hundredths := (200 * size + 1024) / 2048 in
  pretty (hundredths / 100) +:+ "." +:+ two_digits (hundredths mod 100).

(** ** Commands *)

Inductive Command : Type :=
| SipsGet (property path : string)
| SipsToJpeg (quality : Z) (input output : string)
| SipsQuality (quality : Z) (path : string)
| SipsResample (size : Z) (path : string)
| Pbcopy (text : string).

(** The command line handed to [execSync]. *)
Definition command_line (c : Command) : string :=
  match c with
  | SipsGet property path => "sips -g " +:+ property +:+ " " +:+ quoted path
  | SipsToJpeg quality input output =>
      "sips -s format jpeg -s formatOptions " +:+ pretty quality +:+ " "
      +:+ quoted input +:+ " --out " +:+ quoted output
  | SipsQuality quality path =>
      "sips -s formatOptions " +:+ pretty quality +:+ " " +:+ quoted path
  | SipsResample size path => "sips -Z " +:+ pretty size +:+ " " +:+ quoted path
  | Pbcopy text => "echo " +:+ quoted text +:+ " | pbcopy"
  end.

(** ** The operating system and the machine *)

Inductive Sys (A : Type) : Type :=
| SysOk (a : A)
| SysErr (e : JsError).
Arguments SysOk {A} a.
Arguments SysErr {A} e.

Record Os (Disk : Type) : Type := mkOs {
  (* a command run to its end: its standard output or the error of its
     failure, and the disk it leaves *)
  os_exec : string -> Disk -> Sys string * Disk;
  (* fs.statSync(path).size *)
  os_size : string -> Disk -> Sys Z;
  (* fs.existsSync(path) *)
  os_exists : string -> Disk -> bool;
  (* fs.copyFileSync(src, dest) *)
  os_copy : string -> string -> Disk -> Sys unit * Disk;
  (* fs.unlinkSync(path) *)
  os_unlink : string -> Disk -> Sys unit * Disk;
  (* fs.readdirSync(path) *)
  os_readdir : string -> Disk -> Sys (list string)
}.
Arguments os_exec {Disk} _ _ _.
Arguments os_size {Disk} _ _ _.
Arguments os_exists {Disk} _ _ _.
Arguments os_copy {Disk} _ _ _ _.
Arguments os_unlink {Disk} _ _ _.
Arguments os_readdir {Disk} _ _ _.

(** What Node itself provides to the script: the directory of the
    script, the functions of the [path] module, [parseInt] on a
    command-line argument ([None] is NaN) and the text of
    [((1 - a / b) * 100).toFixed(1)], which is floating point. *)
Record Runtime : Type := mkRuntime {
  dirname : string;
  path_join : list string -> string;
  path_basename : string -> string -> string;
  path_extname : string -> string;
  parseInt : string -> option Z;
  ratio_fixed1 : Z -> Z -> string
}.

Inductive Call : Type :=
| Exec (c : Command)
| Copy (src dest : string)
| Unlink (path : string).

Inductive Line : Type :=
| Out (text : string)
| Err (text : string).

Record Machine (Disk : Type) : Type := mkMachine {
  disk : Disk;
  argv : list string;        (* process.argv *)
  calls : list Call;         (* what was asked of the system, oldest first *)
  console : list Line        (* what was printed, oldest first *)
}.
Arguments mkMachine {Disk} _ _ _ _.
Arguments disk {Disk} _.
Arguments argv {Disk} _.
Arguments calls {Disk} _.
Arguments console {Disk} _.

Inductive Outcome (A : Type) : Type :=
| Returns (a : A)
| Throws (e : JsError)
| Exits (code : Z)
| OutOfFuel.
Arguments Returns {A} a.
Arguments Throws {A} e.
Arguments Exits {A} code.
Arguments OutOfFuel {A}.

Definition Node (Disk A : Type) : Type := Machine Disk -> Outcome A * Machine Disk.

#[export] Instance Node_ret {Disk : Type} : MRet (Node Disk) :=
  fun A a m => (Returns a, m).

#[export] Instance Node_bind {Disk : Type} : MBind (Node Disk) := fun A B k c m =>
  match c m with
  | (Returns a, m') => k a m'
  | (Throws e, m') => (Throws e, m')
  | (Exits code, m') => (Exits code, m')
  | (OutOfFuel, m') => (OutOfFuel, m')
  end.

Definition node_throw {Disk A : Type} (e : JsError) : Node Disk A :=
  fun m => (Throws e, m).

(** [process.exit(code)] *)
Definition process_exit {Disk A : Type} (code : Z) : Node Disk A :=
  fun m => (Exits code, m).

Definition out_of_fuel {Disk A : Type} : Node Disk A := fun m => (OutOfFuel, m).

(** [try { body } catch (e) { handler }]: only what is thrown is caught. *)
Definition node_try {Disk A : Type} (body : Node Disk A) (handler : JsError -> Node Disk A)
  : Node Disk A :=
  fun m =>
    match body m with
    | (Throws e, m') => handler e m'
    | r => r
    end.

Definition console_log {Disk : Type} (text : string) : Node Disk unit :=
  fun m => (Returns (), mkMachine (disk m) (argv m) (calls m) (console m ++ [Out text])).

Definition node_console_error {Disk : Type} (text : string) : Node Disk unit :=
  fun m => (Returns (), mkMachine (disk m) (argv m) (calls m) (console m ++ [Err text])).

(** The machine after a call that left disk [d]. *)
Definition called {Disk : Type} (c : Call) (d : Disk) (m : Machine Disk) : Machine Disk :=
  mkMachine d (argv m) (calls m ++ [c]) (console m).

Definition null_index_error : JsError :=
  MkError "TypeError" "Cannot read properties of null (reading '1')".

Definition message (e : JsError) : string :=
  match e with MkError _ msg => msg end.

(** The result of [compressImageWithSips]. *)
Record Compressed : Type := mkCompressed {
  finalWidth : Z;
  finalHeight : Z;
  quality : Z
}.

Section Script.

Context {Disk : Type}.
Variable os : Os Disk.

(** [execSync(command)] *)
Definition execSync (c : Command) : Node Disk string :=
  fun m =>
    match os_exec os (command_line c) (disk m) with
    | (SysOk stdout, d) => (Returns stdout, called (Exec c) d m)
    | (SysErr e, d) => (Throws e, called (Exec c) d m)
    end.

(** [fs.statSync(path).size] *)
Definition statSync_size (path : string) : Node Disk Z :=
  fun m =>
    match os_size os path (disk m) with
    | SysOk size => (Returns size, m)
    | SysErr e => (Throws e, m)
    end.

(** [fs.existsSync(path)] *)
Definition existsSync (path : string) : Node Disk bool :=
  fun m => (Returns (os_exists os path (disk m)), m).

(** [fs.copyFileSync(src, dest)] *)
Definition copyFileSync (src dest : string) : Node Disk unit :=
  fun m =>
    match os_copy os src dest (disk m) with
    | (SysOk _, d) => (Returns (), called (Copy src dest) d m)
    | (SysErr e, d) => (Throws e, called (Copy src dest) d m)
    end.

(** [fs.unlinkSync(path)] *)
Definition unlinkSync (path : string) : Node Disk unit :=
  fun m =>
    match os_unlink os path (disk m) with
    | (SysOk _, d) => (Returns (), called (Unlink path) d m)
    | (SysErr e, d) => (Throws e, called (Unlink path) d m)
    end.

(** [fs.readdirSync(path)] *)
Definition readdirSync (path : string) : Node Disk (list string) :=
  fun m =>
    match os_readdir os path (disk m) with
    | SysOk files => (Returns files, m)
    | SysErr e => (Throws e, m)
    end.

(** [parseInt(output.match(/label(\d+)/)[1])] *)
Definition read_number (label output : string) : Node Disk Z :=
  match capture_digits label output with
  | Some ds => mret (parseInt_digits ds)
  | None => node_throw null_index_error
  end.

(** The first loop: lower the quality by steps of 10 while the file is
    too large and the quality is above 10. *)
Fixpoint quality_loop (fuel : nat) (outputPath : string) (targetSizeKB : Z)
    (currentSize quality : Z) : Node Disk (Z * Z) :=
  if (targetSizeKB * 1024 <? currentSize) && (10 <? quality) then
    match fuel with
    | O => out_of_fuel
    | S fuel' =>
        let quality := quality - 10 in
        execSync (SipsQuality quality outputPath);;
        currentSize ← statSync_size outputPath;
        console_log ("🔄 降质到 " +:+ pretty quality +:+ ": " +:+ kb_fixed2 currentSize +:+ " KB");;
        quality_loop fuel' outputPath targetSizeKB currentSize quality
    end
  else mret (currentSize, quality).

(** The second loop: scale down by a tenth while the file is too large
    and the image is at least 300 wide.  [Math.floor(currentWidth * 0.9)]
    is [9 * currentWidth / 10] on the widths an image has. *)
Fixpoint resize_loop (fuel : nat) (outputPath : string) (targetSizeKB : Z)
    (currentSize : Z) : Node Disk Z :=
  if targetSizeKB * 1024 <? currentSize then
    match fuel with
    | O => out_of_fuel
    | S fuel' =>
        widthOutput ← execSync (SipsGet "pixelWidth" outputPath);
        currentWidth ← read_number "pixelWidth: " widthOutput;
        if currentWidth <? 300 then mret currentSize
        else
          let newWidth := 9 * currentWidth / 10 in
          execSync (SipsResample newWidth outputPath);;
          currentSize ← statSync_size outputPath;
          console_log ("📐 缩放至宽 " +:+ pretty newWidth +:+ ": " +:+ kb_fixed2 currentSize +:+ " KB");;
          resize_loop fuel' outputPath targetSizeKB currentSize
    end
  else mret currentSize.

Definition conversion_error : JsError :=
  MkError "Error" "sips 转换失败，请确保是 macOS 系统".

(** [compressImageWithSips(inputPath, outputPath, targetSizeKB)] *)
Definition compressImageWithSips (fuel : nat) (inputPath outputPath : string)
    (targetSizeKB : Z) : Node Disk Compressed :=
  widthOutput ← execSync (SipsGet "pixelWidth" inputPath);
  heightOutput ← execSync (SipsGet "pixelHeight" inputPath);
  originalWidth ← read_number "pixelWidth: " widthOutput;
  originalHeight ← read_number "pixelHeight: " heightOutput;
  console_log ("📏 原始尺寸: " +:+ pretty originalWidth +:+ " x " +:+ pretty originalHeight);;
  node_try
    (execSync (SipsToJpeg 80 inputPath outputPath);; mret ())
    (fun e => node_throw conversion_error);;
  currentSize ← statSync_size outputPath;
  let quality := 80 in
  console_log ("📊 初始大小: " +:+ kb_fixed2 currentSize +:+ " KB");;
  '(currentSize, quality) ← quality_loop fuel outputPath targetSizeKB currentSize quality;
  currentSize ← resize_loop fuel outputPath targetSizeKB currentSize;
  finalWidthOutput ← execSync (SipsGet "pixelWidth" outputPath);
  finalHeightOutput ← execSync (SipsGet "pixelHeight" outputPath);
  finalWidth ← read_number "pixelWidth: " finalWidthOutput;
  finalHeight ← read_number "pixelHeight: " finalHeightOutput;
  mret (mkCompressed finalWidth finalHeight quality).

End Script.


Section Main.

Context {Disk : Type}.
Variable os : Os Disk.
Variable rt : Runtime.

Fixpoint string_repeat (n : nat) (s : string) : string :=
  match n with
  | O => EmptyString
  | S n' => s +:+ string_repeat n' s
  end.

(** [files.forEach(f => console.log(...))] *)
Fixpoint log_each (prefix : string) (files : list string) : Node Disk unit :=
  match files with
  | [] => mret ()
  | f :: rest => console_log (prefix +:+ f);; log_each prefix rest
  end.

(** [parseInt(arg) || 400], where a missing argument is [undefined]. *)
Definition target_of (arg : option string) : Z :=
  match parseInt rt (default "undefined" arg) with
  | Some n => if n =? 0 then 400 else n
  | None => 400
  end.

Definition imagesDir : string := path_join rt [dirname rt; ".."; "images"].
Definition inputPath_of (imageName : string) : string := path_join rt [imagesDir; imageName].
Definition baseName_of (imageName : string) : string :=
  path_basename rt imageName (path_extname rt imageName).
Definition outputPath_of (imageName : string) : string :=
  path_join rt [imagesDir; baseName_of imageName +:+ ".jpg"].
Definition temp_path : string := path_join rt [dirname rt; ".temp_compress"].
Definition cdn_url (imageName : string) : string :=
  "https://cdn.jsdelivr.net/gh/glidea/banana-prompt-quicker@main/images/"
  +:+ baseName_of imageName +:+ ".jpg".

(** [main()] *)
Definition main (fuel : nat) : Node Disk unit :=
  fun m0 =>
  let args := drop 2 (argv m0) in
  (match args with
   | [] =>
       console_log "用法: node compress_image.js <图片名称> [目标大小KB]";;
       console_log EmptyString;;
       console_log "示例:";;
       console_log "  node compress_image.js example.png      # 压缩到默认 400KB";;
       console_log "  node compress_image.js example.jpg 200  # 压缩到 200KB";;
       console_log EmptyString;;
       console_log "说明:";;
       console_log "  - 图片名称是 images 目录下的文件名";;
       console_log "  - 输出会覆盖原文件（转为 jpg 格式）";;
       process_exit 1
   | imageName :: _ =>
       let targetSizeKB := target_of (args !! 1%nat) in
       let inputPath := inputPath_of imageName in
       present ← existsSync os inputPath;
       if negb present then
         node_console_error ("❌ 错误: 文件不存在 - " +:+ inputPath);;
         console_log EmptyString;;
         console_log "📂 images 目录下的文件:";;
         node_try
           (files ← readdirSync os imagesDir; log_each "   - " files)
           (fun e => console_log "   (images 目录不存在)");;
         process_exit 1
       else
         let baseName := baseName_of imageName in
         let outputPath := outputPath_of imageName in
         originalSize ← statSync_size os inputPath;
         console_log (nl +:+ "🚀 开始压缩... 文件: " +:+ imageName);;
         console_log ("📦 原始大小: " +:+ kb_fixed2 originalSize +:+ " KB");;
         console_log ("🎯 目标大小: " +:+ pretty targetSizeKB +:+ " KB");;
         console_log EmptyString;;
         node_try
           (let needTemp := negb (String.eqb inputPath outputPath) in
            tempPath ← (if needTemp
                        then copyFileSync os inputPath temp_path;; mret temp_path
                        else mret inputPath);
            console_log "🗜️  压缩中 (使用 macOS sips)...";;
            result ← compressImageWithSips os fuel tempPath outputPath targetSizeKB;
            (if needTemp
             then temp_left ← existsSync os tempPath;
                  if (temp_left : bool) then unlinkSync os tempPath else mret ()
             else mret ());;
            (if negb (String.eqb inputPath outputPath)
             then original_left ← existsSync os inputPath;
                  if (original_left : bool)
                  then (unlinkSync os inputPath;;
                        console_log ("🗑️  已删除原文件: " +:+ imageName) : Node Disk unit)
                  else mret ()
             else mret ());;
            finalSize ← statSync_size os outputPath;
            let compressionRatio := ratio_fixed1 rt finalSize originalSize in
            console_log EmptyString;;
            console_log (string_repeat 40 "═");;
            console_log "✅ 压缩完成!";;
            console_log ("   文件: images/" +:+ baseName +:+ ".jpg");;
            console_log ("   尺寸: " +:+ pretty (finalWidth result) +:+ " x "
                         +:+ pretty (finalHeight result));;
            console_log ("   大小: " +:+ kb_fixed2 finalSize +:+ " KB");;
            console_log ("   压缩率: " +:+ compressionRatio +:+ "%");;
            console_log (string_repeat 40 "═");;
            let cdnUrl := cdn_url imageName in
            console_log (nl +:+ "📋 CDN: " +:+ cdnUrl);;
            node_try
              (execSync os (Pbcopy cdnUrl);; console_log "✨ 已复制到剪贴板")
              (fun e => mret ()))
           (fun error =>
              node_console_error (nl +:+ "❌ 错误:" +:+ " " +:+ message error);;
              process_exit 1)
   end) m0.

End Main.

(** ** The parts of [compressImageWithSips] *)

Section ScriptParts.

Context {Disk : Type}.
Variable os : Os Disk.

(** From the first query to the first size: lines 10 to 26. *)
Definition convert_and_measure (inputPath outputPath : string) : Node Disk Z :=
  widthOutput ← execSync os (SipsGet "pixelWidth" inputPath);
  heightOutput ← execSync os (SipsGet "pixelHeight" inputPath);
  originalWidth ← read_number "pixelWidth: " widthOutput;
  originalHeight ← read_number "pixelHeight: " heightOutput;
  console_log ("📏 原始尺寸: " +:+ pretty originalWidth +:+ " x " +:+ pretty originalHeight);;
  node_try
    (execSync os (SipsToJpeg 80 inputPath outputPath);; mret ())
    (fun e => node_throw conversion_error);;
  currentSize ← statSync_size os outputPath;
  console_log ("📊 初始大小: " +:+ kb_fixed2 currentSize +:+ " KB");;
  mret currentSize.

(** The last queries and the result: lines 51 to 56. *)
Definition measure_result (outputPath : string) (quality : Z) : Node Disk Compressed :=
  finalWidthOutput ← execSync os (SipsGet "pixelWidth" outputPath);
  finalHeightOutput ← execSync os (SipsGet "pixelHeight" outputPath);
  finalWidth ← read_number "pixelWidth: " finalWidthOutput;
  finalHeight ← read_number "pixelHeight: " finalHeightOutput;
  mret (mkCompressed finalWidth finalHeight quality).

(** The width [sips] reports for a file on a disk, as the script reads it. *)
Definition width_at (path : string) (d : Disk) : option Z :=
  match os_exec os (command_line (SipsGet "pixelWidth" path)) d with
  | (SysOk stdout, _) => parseInt_digits <$> capture_digits "pixelWidth: " stdout
  | (SysErr _, _) => None
  end.

(** A query changes nothing on the disk. *)
Definition queries_read_only : Prop :=
  forall property path d,
    (os_exec os (command_line (SipsGet property path)) d).2 = d.

(** After [sips -Z n] on a file, the file is at most [n] wide. *)
Definition resample_bounds_width (path : string) : Prop :=
  forall n d w,
    0 <= n ->
    width_at path (os_exec os (command_line (SipsResample n path)) d).2 = Some w ->
    w <= n.

(** A computation whose calls to the system all satisfy [P]. *)
Definition only_calls {A : Type} (P : Call -> Prop) (c : Node Disk A) : Prop :=
  forall m, exists new, calls (c m).2 = calls m ++ new /\ Forall P new.

End ScriptParts.

(** What the second loop asks of the system: the width of the file, or
    a resample of it to no less than 270. *)
Definition resize_call (outputPath : string) (c : Call) : Prop :=
  c = Exec (SipsGet "pixelWidth" outputPath)
  \/ exists n, c = Exec (SipsResample n outputPath) /\ 270 <= n.

Definition is_exec (c : Call) : Prop := exists cmd, c = Exec cmd.

Definition is_unlink (c : Call) : Prop := exists path, c = Unlink path.

(** The commands of the first loop that went from quality [q] down
    [n] steps. *)
Definition quality_steps (outputPath : string) (q : Z) (n : Z) : list Call :=
  (fun k => Exec (SipsQuality (q - 10 * k) outputPath)) <$> seqZ 1 n.

(** ** A small operating system for the examples *)

Record Image : Type := mkImage {
  img_width : N;
  img_height : N;
  img_quality : Z
}.

(** A file weighs its pixels times its quality, in hundredths of bytes. *)
Definition toy_size (i : Image) : Z :=
  Z.of_N (img_width i * img_height i) * img_quality i / 100.

Fixpoint until_quote (s : string) : string * string :=
  match s with
  | EmptyString => (EmptyString, EmptyString)
  | String a s' =>
      if Ascii.eqb a (ascii_of_nat 34) then (EmptyString, s')
      else let '(word, rest) := until_quote s' in (String a word, rest)
  end.

Definition read_quoted (s : string) : option (string * string) :=
  match s with
  | String a s' => if Ascii.eqb a (ascii_of_nat 34) then Some (until_quote s') else None
  | EmptyString => None
  end.

Definition read_digits (s : string) : option (Z * string) :=
  match take_digits s with
  | EmptyString => None
  | ds => rest ← strip_prefix ds s; Some (parseInt_digits ds, rest)
  end.

Definition toy_failure (cmd : string) : JsError :=
  MkError "Error" ("Command failed: " +:+ cmd).

Definition toy_get (property : string) (value : Image -> N) (cmd : string)
    (d : gmap string Image) : option (Sys string * gmap string Image) :=
  rest ← strip_prefix ("sips -g " +:+ property +:+ " ") cmd;
  '(path, _) ← read_quoted rest;
  i ← d !! path;
  Some (SysOk (path +:+ nl +:+ "  " +:+ property +:+ ": " +:+ pretty (value i) +:+ nl), d).

Definition toy_to_jpeg (cmd : string) (d : gmap string Image)
    : option (Sys string * gmap string Image) :=
  rest ← strip_prefix "sips -s format jpeg -s formatOptions " cmd;
  '(q, rest) ← read_digits rest;
  rest ← strip_prefix " " rest;
  '(input, rest) ← read_quoted rest;
  rest ← strip_prefix " --out " rest;
  '(output, _) ← read_quoted rest;
  i ← d !! input;
  Some (SysOk EmptyString, <[output := mkImage (img_width i) (img_height i) q]> d).

Definition toy_quality (cmd : string) (d : gmap string Image)
    : option (Sys string * gmap string Image) :=
  rest ← strip_prefix "sips -s formatOptions " cmd;
  '(q, rest) ← read_digits rest;
  rest ← strip_prefix " " rest;
  '(path, _) ← read_quoted rest;
  i ← d !! path;
  Some (SysOk EmptyString, <[path := mkImage (img_width i) (img_height i) q]> d).

(** [sips -Z n] scales the larger side to [n] and the other with it. *)
Definition toy_resample (cmd : string) (d : gmap string Image)
    : option (Sys string * gmap string Image) :=
  rest ← strip_prefix "sips -Z " cmd;
  '(n, rest) ← read_digits rest;
  rest ← strip_prefix " " rest;
  '(path, _) ← read_quoted rest;
  i ← d !! path;
  let side := N.max (img_width i) (img_height i) in
  Some (SysOk EmptyString,
        <[path := mkImage (img_width i * Z.to_N n / side) (img_height i * Z.to_N n / side)
                          (img_quality i)]> d).

Definition toy_exec (cmd : string) (d : gmap string Image)
    : Sys string * gmap string Image :=
  match toy_get "pixelWidth" img_width cmd d with
  | Some r => r
  | None =>
  match toy_get "pixelHeight" img_height cmd d with
  | Some r => r
  | None =>
  match toy_to_jpeg cmd d with
  | Some r => r
  | None =>
  match toy_quality cmd d with
  | Some r => r
  | None =>
  match toy_resample cmd d with
  | Some r => r
  | None => (SysErr (toy_failure cmd), d)
  end end end end end.

Definition no_such_file (path : string) : JsError :=
  MkError "Error" ("ENOENT: no such file or directory, " +:+ path).

Definition toy_os : Os (gmap string Image) :=
  mkOs (gmap string Image)
    toy_exec
    (fun path d =>
       match d !! path with
       | Some i => SysOk (toy_size i)
       | None => SysErr (no_such_file path)
       end)
    (fun path d => bool_decide (is_Some (d !! path)))
    (fun src dest d =>
       match d !! src with
       | Some i => (SysOk (), <[dest := i]> d)
       | None => (SysErr (no_such_file src), d)
       end)
    (fun path d =>
       match d !! path with
       | Some _ => (SysOk (), delete path d)
       | None => (SysErr (no_such_file path), d)
       end)
    (fun path d => SysOk (map_to_list d).*1).

Fixpoint last_dot_split (s : string) : option (string * string) :=
  match s with
  | EmptyString => None
  | String a s' =>
      match last_dot_split s' with
      | Some (base, ext) => Some (String a base, ext)
      | None => if Ascii.eqb a "." then Some (EmptyString, s) else None
      end
  end.

Fixpoint slash_join (parts : list string) : string :=
  match parts with
  | [] => "."
  | [p] => p
  | p :: rest => p +:+ "/" +:+ slash_join rest
  end.

Definition toy_runtime : Runtime :=
  mkRuntime "/repo/make"
    slash_join
    (fun name ext =>
       match last_dot_split name with
       | Some (base, e) => if String.eqb e ext then base else name
       | None => name
       end)
    (fun name =>
       match last_dot_split name with
       | Some (_, e) => e
       | None => EmptyString
       end)
    (fun arg => fst <$> read_digits arg)
    (fun a b => pretty (100 - 100 * a / b)).

Definition photo_png : string := "/repo/make/../images/photo.png".
Definition photo_jpg : string := "/repo/make/../images/photo.jpg".

(** A disk with one 1000 x 800 image, [photo.png]. *)
Definition toy_disk : gmap string Image := {[ photo_png := mkImage 1000 800 100 ]}.

(** A disk with the same image already named [photo.jpg]. *)
Definition toy_disk_jpg : gmap string Image := {[ photo_jpg := mkImage 1000 800 100 ]}.

(** A system without [sips]: every command fails and leaves the disk as
    it is; the file system works. *)
Definition os_without_sips : Os (gmap string Image) :=
  mkOs (gmap string Image)
    (fun cmd d => (SysErr (toy_failure cmd), d))
    (os_size toy_os) (os_exists toy_os) (os_copy toy_os) (os_unlink toy_os)
    (os_readdir toy_os).

Definition boot (d : gmap string Image) (args : list string) : Machine (gmap string Image) :=
  mkMachine d ("node" :: "compress_image.js" :: args) [] [].


(** ** Running the steps *)

Lemma bind_normal {A B : Type} (m : Js A) (k : A -> Js B) w a w1 r :
  m w = (Normal a, w1) -> k a w1 = r -> (m ≫= k) w = r.
Proof. intros Hm Hk. unfold mbind, Js_bind. by rewrite Hm. Qed.

Lemma bind_throw {A B : Type} (m : Js A) (k : A -> Js B) w e w1 :
  m w = (Throw e, w1) -> (m ≫= k) w = (Throw e, w1).
Proof. intros Hm. unfold mbind, Js_bind. by rewrite Hm. Qed.

Lemma try_catch_normal {A : Type} (body : Js A) handler w a w1 :
  body w = (Normal a, w1) -> try_catch body handler w = (Normal a, w1).
Proof. intros Hb. unfold try_catch. by rewrite Hb. Qed.

Lemma try_catch_throw {A : Type} (body : Js A) handler w e w1 r :
  body w = (Throw e, w1) -> handler e w1 = r -> try_catch body handler w = r.
Proof. intros Hb Hh. unfold try_catch. by rewrite Hb. Qed.

Lemma pick_lookup (keys : list string) (s : gmap string Json) (k : string) :
  k ∈ keys -> pick keys s !! k = s !! k.
Proof.
  intros Hk. unfold pick. apply option_eq. intros v.
  rewrite map_lookup_filter_Some. simpl. tauto.
Qed.

Lemma storage_local_get_ok keys d w :
  next_storage w = StorageOk d ->
  storage_local_get keys w
  = (Normal (pick keys (storage w)), after_storage d (EStorageGet keys) w).
Proof.
  intros H. unfold storage_local_get, mbind, Js_bind, emit, modify, next_storage_reply.
  replace (next_storage (set_trace _ w)) with (next_storage w) by done.
  by rewrite H.
Qed.

Lemma storage_local_get_fails keys d w :
  next_storage w = StorageFails d ->
  storage_local_get keys w = (Throw storage_error, after_storage d (EStorageGet keys) w).
Proof.
  intros H. unfold storage_local_get, mbind, Js_bind, emit, modify, next_storage_reply.
  replace (next_storage (set_trace _ w)) with (next_storage w) by done.
  by rewrite H.
Qed.

Lemma storage_local_set_ok entries d w :
  next_storage w = StorageOk d ->
  storage_local_set entries w
  = (Normal (), set_storage (write entries (storage w))
                            (after_storage d (EStorageSet entries) w)).
Proof.
  intros H. unfold storage_local_set, mbind, Js_bind, emit, modify, next_storage_reply.
  replace (next_storage (set_trace _ w)) with (next_storage w) by done.
  by rewrite H.
Qed.

Lemma storage_local_set_fails entries d w :
  next_storage w = StorageFails d ->
  storage_local_set entries w
  = (Throw storage_error, after_storage d (EStorageSet entries) w).
Proof.
  intros H. unfold storage_local_set, mbind, Js_bind, emit, modify, next_storage_reply.
  replace (next_storage (set_trace _ w)) with (next_storage w) by done.
  by rewrite H.
Qed.

Lemma date_now_run w :
  date_now w = (Normal (clock w), logged (EDateNow (clock w)) w).
Proof. reflexivity. Qed.

Lemma fetch_down url d w :
  next_fetch w = NetworkDown d ->
  fetch url w = (Throw fetch_error, after_fetch d url w).
Proof.
  intros H. unfold fetch, mbind, Js_bind, emit, modify, next_fetch_reply.
  replace (next_fetch (set_trace _ w)) with (next_fetch w) by done.
  by rewrite H.
Qed.

Lemma fetch_responds url d resp w :
  next_fetch w = Responds d resp ->
  fetch url w = (Normal resp, after_fetch d url w).
Proof.
  intros H. unfold fetch, mbind, Js_bind, emit, modify, next_fetch_reply.
  replace (next_fetch (set_trace _ w)) with (next_fetch w) by done.
  by rewrite H.
Qed.

Lemma json_ok r v w :
  body r = Some v ->
  json r w = (Normal v, set_clock (clock w + body_delay r) (logged EJson w)).
Proof. intros H. unfold json, mbind, Js_bind, emit, sleep, modify. by rewrite H. Qed.

Lemma json_fails r w :
  body r = None ->
  json r w = (Throw json_error, set_clock (clock w + body_delay r) (logged EJson w)).
Proof. intros H. unfold json, mbind, Js_bind, emit, sleep, modify. by rewrite H. Qed.

(** ** The paths through [get] *)

Lemma recover_run e w :
  recover e w
  = (match next_storage w with
     | StorageOk _ => Normal (storage w !! CACHE_KEY)
     | StorageFails _ => Throw storage_error
     end, recovered e w).
Proof.
  unfold recover, recovered.
  eapply bind_normal; [reflexivity|].
  destruct (next_storage w) as [d|d] eqn:Hs.
  - eapply bind_normal; [by apply (storage_local_get_ok _ d)|].
    unfold mret, Js_ret, prop. simpl. rewrite pick_lookup by set_solver. done.
  - eapply bind_throw. by apply (storage_local_get_fails _ d).
Qed.

Section Paths.

Variable cf : Z -> Json -> Z -> bool.

Lemma get_first_read_fails w d :
  next_storage w = StorageFails d ->
  get cf w
  = recover storage_error
      (after_storage d (EStorageGet [CACHE_KEY; CACHE_TIMESTAMP_KEY]) w).
Proof.
  intros Hs. unfold get.
  eapply try_catch_throw; [|reflexivity].
  eapply bind_throw. by apply storage_local_get_fails.
Qed.

Lemma get_hit w d :
  next_storage w = StorageOk d ->
  fresh cf (storage w) (sampled w) = true ->
  get cf w = (Normal (storage w !! CACHE_KEY), checked w).
Proof.
  intros Hs Hf. unfold get.
  eapply try_catch_normal.
  eapply bind_normal; [by apply storage_local_get_ok|].
  unfold prop. rewrite !pick_lookup by set_solver.
  eapply bind_normal; [apply date_now_run|].
  unfold sampled in Hf. rewrite Hs in Hf. simpl in *. unfold fresh in Hf. rewrite Hf.
  unfold mret, Js_ret, checked, logged, after_storage, set_trace, sampled. simpl.
  rewrite Hs. simpl. by rewrite <- app_assoc.
Qed.

(** Step 1 on a miss, followed by the fetch. *)
Lemma get_miss w d (r : Completion JsVal * World) :
  next_storage w = StorageOk d ->
  fresh cf (storage w) (sampled w) = false ->
  try_catch
    (response ← fetch GITHUB_PROMPTS_URL;
     if negb (ok response)
     then throw (MkError "Error" ("HTTP error! status: " +:+ pretty (status response)))
     else
       data ← json response;
       storage_local_set (cache_entries data (sampled w));;
       mret (Some data))
    recover (checked w) = r ->
  get cf w = r.
Proof.
  intros Hs Hf <-. unfold get, try_catch.
  erewrite bind_normal; [reflexivity | by apply storage_local_get_ok |].
  unfold prop. rewrite !pick_lookup by set_solver.
  eapply bind_normal; [apply date_now_run|].
  unfold sampled in *. rewrite Hs in *. simpl in *. unfold fresh in Hf. rewrite Hf.
  unfold checked, logged, after_storage, set_trace, sampled. simpl.
  rewrite Hs. simpl. by rewrite <- app_assoc.
Qed.

Lemma get_fetch_fails w d :
  next_storage w = StorageOk d ->
  fresh cf (storage w) (sampled w) = false ->
  fetched (next_fetch w) = None ->
  get cf w = recover (failure (next_fetch w)) (attempted w).
Proof.
  intros Hs Hf Hn. eapply get_miss; [done..|].
  assert (Hc : next_fetch (checked w) = next_fetch w) by done.
  destruct (next_fetch w) as [dn|dn resp] eqn:Hr; simpl in Hn.
  - eapply try_catch_throw.
    + eapply bind_throw. apply (fetch_down _ dn), Hc.
    + unfold attempted, after_fetch. simpl. rewrite Hr. simpl.
      by rewrite <- !app_assoc.
  - destruct (ok resp) eqn:Hok.
    + eapply try_catch_throw.
      * eapply bind_normal; [apply (fetch_responds _ dn resp), Hc|].
        rewrite Hok. simpl. eapply bind_throw. by apply json_fails.
      * unfold attempted, after_fetch, logged, set_clock, set_trace. simpl.
        rewrite Hr. simpl. rewrite Hok. simpl.
        by rewrite <- !app_assoc, Z.add_assoc.
    + eapply try_catch_throw.
      * eapply bind_normal; [apply (fetch_responds _ dn resp), Hc|].
        rewrite Hok. reflexivity.
      * unfold attempted, after_fetch. simpl. rewrite Hr. simpl. rewrite Hok.
        by rewrite <- !app_assoc.
Qed.

(** The fetch on a miss, when it brings [data] back: the world in which
    the write of step 3 starts. *)
Lemma get_fetched w d data (r : Completion JsVal * World) :
  next_storage w = StorageOk d ->
  fresh cf (storage w) (sampled w) = false ->
  fetched (next_fetch w) = Some data ->
  try_catch
    (storage_local_set (cache_entries data (sampled w));; mret (Some data))
    recover (attempted w) = r ->
  get cf w = r.
Proof.
  intros Hs Hf Hn <-. eapply get_miss; [done..|].
  assert (Hc : next_fetch (checked w) = next_fetch w) by done.
  destruct (next_fetch w) as [dn|dn resp] eqn:Hr; simpl in Hn; [done|].
  destruct (ok resp) eqn:Hok; [|done].
  unfold try_catch.
  erewrite bind_normal; [reflexivity | apply (fetch_responds _ dn resp), Hc |].
  rewrite Hok. simpl.
  erewrite bind_normal; [reflexivity | by apply json_ok |].
  unfold attempted, after_fetch, logged, set_clock, set_trace. simpl.
  rewrite Hr. simpl. rewrite Hok. simpl.
  by rewrite <- !app_assoc, Z.add_assoc.
Qed.

Lemma get_fetch_stored w d data d2 :
  next_storage w = StorageOk d ->
  fresh cf (storage w) (sampled w) = false ->
  fetched (next_fetch w) = Some data ->
  next_storage (attempted w) = StorageOk d2 ->
  get cf w
  = (Normal (Some data),
     set_storage (write (cache_entries data (sampled w)) (storage w)) (write_tried data w)).
Proof.
  intros Hs Hf Hn Hs2. eapply get_fetched; [done..|].
  eapply try_catch_normal.
  eapply bind_normal; [by apply storage_local_set_ok|].
  unfold write_tried. by rewrite Hs2.
Qed.

Lemma get_store_fails w d data d2 :
  next_storage w = StorageOk d ->
  fresh cf (storage w) (sampled w) = false ->
  fetched (next_fetch w) = Some data ->
  next_storage (attempted w) = StorageFails d2 ->
  get cf w = recover storage_error (write_tried data w).
Proof.
  intros Hs Hf Hn Hs2. eapply get_fetched; [done..|].
  eapply try_catch_throw.
  - eapply bind_throw. by apply storage_local_set_fails.
  - unfold write_tried. by rewrite Hs2.
Qed.

End Paths.

(** ** Counting what a call did *)

Lemma fetches_app t1 t2 : fetches (t1 ++ t2) = (fetches t1 + fetches t2)%nat.
Proof.
  induction t1 as [|ev t1 IH]; simpl; [done|].
  destruct ev; simpl; rewrite IH; done.
Qed.

Lemma writes_app t1 t2 : writes (t1 ++ t2) = writes t1 ++ writes t2.
Proof.
  induction t1 as [|ev t1 IH]; simpl; [done|].
  destruct ev; simpl; rewrite IH; done.
Qed.

Lemma trace_recovered e w :
  trace (recovered e w)
  = trace w ++ [EConsoleError "Failed to fetch prompts:" e; EStorageGet [CACHE_KEY]].
Proof. unfold recovered, after_storage, logged. simpl. by rewrite <- app_assoc. Qed.

Lemma fetches_recovered e w : fetches (trace (recovered e w)) = fetches (trace w).
Proof. rewrite trace_recovered, fetches_app. simpl. lia. Qed.

Lemma writes_recovered e w : writes (trace (recovered e w)) = writes (trace w).
Proof. rewrite trace_recovered, writes_app. simpl. by rewrite app_nil_r. Qed.

Lemma fetches_checked w : fetches (trace (checked w)) = fetches (trace w).
Proof. unfold checked. simpl. rewrite fetches_app. simpl. lia. Qed.

Lemma writes_checked w : writes (trace (checked w)) = writes (trace w).
Proof. unfold checked. simpl. rewrite writes_app. simpl. by rewrite app_nil_r. Qed.

Lemma fetches_attempted w : fetches (trace (attempted w)) = S (fetches (trace w)).
Proof.
  unfold attempted. simpl. rewrite fetches_app. simpl.
  destruct (next_fetch w) as [dn|dn resp]; simpl; [lia|].
  destruct (ok resp); simpl; lia.
Qed.

Lemma writes_attempted w : writes (trace (attempted w)) = writes (trace w).
Proof.
  unfold attempted. simpl. rewrite writes_app. simpl.
  destruct (next_fetch w) as [dn|dn resp]; simpl; [by rewrite app_nil_r|].
  destruct (ok resp); simpl; by rewrite app_nil_r.
Qed.

Lemma trace_write_tried data w :
  trace (write_tried data w)
  = trace (attempted w) ++ [EStorageSet (cache_entries data (sampled w))].
Proof. reflexivity. Qed.

(** ** A store that works *)

Lemma storage_works_ok r : storage_works r = true -> r = StorageOk (storage_delay r).
Proof. by destruct r. Qed.

Lemma reliable_next w : reliable w = true -> storage_works (next_storage w) = true.
Proof.
  unfold reliable, next_storage. destruct (storage_script w) as [|r rest]; simpl; [done|].
  by intros [? _]%andb_prop.
Qed.

Lemma reliable_tail w w1 :
  reliable w = true -> storage_script w1 = tail (storage_script w) -> reliable w1 = true.
Proof.
  unfold reliable. intros H ->. destruct (storage_script w) as [|r rest]; simpl in *; [done|].
  by apply andb_prop in H as [_ ?].
Qed.

Lemma recover_reliable e w :
  reliable w = true -> recover e w = (Normal (storage w !! CACHE_KEY), recovered e w).
Proof.
  intros H%reliable_next%storage_works_ok. rewrite recover_run. by rewrite H.
Qed.

Section Outcomes.

Variable cf : Z -> Json -> Z -> bool.

(** A call on a working store in which the fetch brings nothing back
    (or is not made) ends in the cached payload, absent or not, and
    leaves the store as it was. *)
Lemma get_without_data w :
  reliable w = true ->
  fetched (next_fetch w) = None ->
  exists w', get cf w = (Normal (storage w !! CACHE_KEY), w')
             /\ storage w' = storage w /\ writes (trace w') = writes (trace w).
Proof.
  intros Hrel Hn.
  pose proof (storage_works_ok _ (reliable_next _ Hrel)) as Hs.
  destruct (fresh cf (storage w) (sampled w)) eqn:Hf.
  - exists (checked w). rewrite writes_checked. split; [|done].
    by eapply get_hit.
  - exists (recovered (failure (next_fetch w)) (attempted w)).
    rewrite writes_recovered, writes_attempted. split; [|done].
    erewrite get_fetch_fails by done.
    by rewrite recover_reliable by by apply (reliable_tail w).
Qed.

(** A call that misses makes one fetch, whatever comes of it. *)
Lemma get_miss_fetches_once w :
  storage_works (next_storage w) = true ->
  fresh cf (storage w) (sampled w) = false ->
  fetches (trace (get cf w).2) = S (fetches (trace w)).
Proof.
  intros Hs%storage_works_ok Hf.
  destruct (fetched (next_fetch w)) as [data|] eqn:Hn.
  - destruct (next_storage (attempted w)) as [d2|d2] eqn:Hs2.
    + erewrite get_fetch_stored by done. cbn [snd trace set_storage].
      rewrite trace_write_tried, fetches_app, fetches_attempted. simpl. lia.
    + erewrite get_store_fails by done. rewrite recover_run. cbn [snd].
      rewrite fetches_recovered, trace_write_tried, fetches_app, fetches_attempted.
      simpl. lia.
  - erewrite get_fetch_fails by done. rewrite recover_run. cbn [snd].
    by rewrite fetches_recovered, fetches_attempted.
Qed.

End Outcomes.

Lemma forallb_hd {A : Type} (p : A -> bool) (d : A) (l : list A) :
  p d = true -> forallb p l = true -> p (hd d l) = true.
Proof. destruct l as [|x l]; simpl; [done|]. by intros _ [? _]%andb_prop. Qed.

Lemma forallb_tail {A : Type} (p : A -> bool) (l : list A) :
  forallb p l = true -> forallb p (tail l) = true.
Proof. destruct l as [|x l]; simpl; [done|]. by intros [_ ?]%andb_prop. Qed.

Lemma monotone_attempt w : monotone w = true -> 0 <= attempt_delay (next_fetch w).
Proof.
  unfold monotone. intros [_ H]%andb_prop.
  apply (forallb_hd _ (NetworkDown 0)) in H; [|done].
  fold (next_fetch w) in H. destruct (next_fetch w) as [d|d resp]; simpl; [lia|].
  apply andb_prop in H as [H1 H2]. destruct (ok resp); lia.
Qed.

Lemma monotone_write w :
  monotone w = true -> 0 <= storage_delay (next_storage (attempted w)).
Proof.
  unfold monotone. intros [H _]%andb_prop.
  apply forallb_tail, (forallb_hd _ (StorageOk 0)) in H; [|done].
  change (hd _ _) with (next_storage (attempted w)) in H. lia.
Qed.

Lemma keys_differ : CACHE_TIMESTAMP_KEY <> CACHE_KEY.
Proof. discriminate. Qed.

Lemma write_cache_entries data now (s : gmap string Json) :
  write (cache_entries data now) s
  = <[CACHE_TIMESTAMP_KEY := JNum now]> (<[CACHE_KEY := data]> s).
Proof. reflexivity. Qed.

Lemma fresh_number cf (s : gmap string Json) P T now :
  s !! CACHE_KEY = Some P ->
  s !! CACHE_TIMESTAMP_KEY = Some (JNum T) ->
  fresh cf s now = json_truthy P && negb (T =? 0) && (now - T <? CACHE_DURATION).
Proof. intros HP HT. unfold fresh. by rewrite HP, HT. Qed.

Lemma get_refreshes cf w data :
  reliable w = true ->
  fresh cf (storage w) (sampled w) = false ->
  fetched (next_fetch w) = Some data ->
  get cf w = (Normal (Some data), refreshed data w).
Proof.
  intros Hrel Hf Hn.
  pose proof (storage_works_ok _ (reliable_next _ Hrel)) as Hs.
  assert (reliable (attempted w) = true) as Hs2%reliable_next%storage_works_ok
    by by apply (reliable_tail w).
  by eapply get_fetch_stored.
Qed.

Lemma trace_refreshed data w :
  fetched (next_fetch w) = Some data ->
  trace (refreshed data w)
  = trace w ++ [EStorageGet [CACHE_KEY; CACHE_TIMESTAMP_KEY]; EDateNow (sampled w);
                EFetch GITHUB_PROMPTS_URL; EJson;
                EStorageSet (cache_entries data (sampled w))].
Proof.
  intros Hn. unfold refreshed, write_tried, after_storage, attempted. simpl.
  destruct (next_fetch w) as [dn|dn resp]; simpl in *; [done|].
  destruct (ok resp); [|done]. simpl. by rewrite <- app_assoc.
Qed.

(** ** The properties of [get] *)

Section Claims.

Variable cf : Z -> Json -> Z -> bool.

(** C1, amended: a truthy payload P cached with a nonzero timestamp T is
    returned by a call that samples the clock at T' with T' - T < 120000,
    and that call makes no network fetch. *)
Theorem get_fresh_truthy_hit w P T :
  storage w !! CACHE_KEY = Some P ->
  storage w !! CACHE_TIMESTAMP_KEY = Some (JNum T) ->
  json_truthy P = true ->
  T <> 0 ->
  reliable w = true ->
  sampled w - T < 120000 ->
  exists w', get cf w = (Normal (Some P), w')
             /\ fetches (trace w') = fetches (trace w).
Proof.
  intros HP HT Htruthy Hnz Hrel Hage.
  pose proof (storage_works_ok _ (reliable_next _ Hrel)) as Hs.
  exists (checked w). split; [|apply fetches_checked].
  rewrite <- HP. eapply get_hit; [done|].
  rewrite (fresh_number _ _ P T) by done. rewrite Htruthy. simpl.
  apply andb_true_intro. split.
  - apply negb_true_iff, Z.eqb_neq. done.
  - apply Z.ltb_lt. unfold CACHE_DURATION. lia.
Qed.

(** C2: on a working store [get] always returns normally; an error of the
    fetch, of the status check or of the parse is logged and answered by
    reading the cache again. *)
Theorem get_never_throws w :
  reliable w = true ->
  (exists v w', get cf w = (Normal v, w'))
  /\ (fresh cf (storage w) (sampled w) = false ->
      fetched (next_fetch w) = None ->
      get cf w = (Normal (storage w !! CACHE_KEY),
                  recovered (failure (next_fetch w)) (attempted w))).
Proof.
  intros Hrel.
  pose proof (storage_works_ok _ (reliable_next _ Hrel)) as Hs.
  split.
  - destruct (fetched (next_fetch w)) as [data|] eqn:Hn.
    + destruct (fresh cf (storage w) (sampled w)) eqn:Hf.
      * eexists _, _. by eapply get_hit.
      * eexists _, _. by apply get_refreshes.
    + destruct (get_without_data cf w Hrel Hn) as (w' & Hget & _). eauto.
  - intros Hf Hn. erewrite get_fetch_fails by done.
    by rewrite recover_reliable by by apply (reliable_tail w).
Qed.

(** C3: when the store holds a payload P and the fetch fails, [get]
    returns P, whatever the age of P. *)
Theorem get_serves_stale w P :
  storage w !! CACHE_KEY = Some P ->
  reliable w = true ->
  fetched (next_fetch w) = None ->
  exists w', get cf w = (Normal (Some P), w').
Proof.
  intros HP Hrel Hn.
  destruct (get_without_data cf w Hrel Hn) as (w' & Hget & _).
  exists w'. by rewrite <- HP.
Qed.

(** C4, amended: with [{"a":1}] cached at timestamp 0, a call at 60000
    with the network unreachable returns [{"a":1}], after one attempt at
    the network: the timestamp 0 fails the hit test, the fetch fails and
    the cache is read again. *)
Theorem scenario_fresh_falls_back :
  exists w', get cf scenario_fresh = (Normal (Some a1), w')
             /\ trace w' = [EStorageGet [CACHE_KEY; CACHE_TIMESTAMP_KEY];
                            EDateNow 60000;
                            EFetch GITHUB_PROMPTS_URL;
                            EConsoleError "Failed to fetch prompts:" fetch_error;
                            EStorageGet [CACHE_KEY]]
             /\ fetches (trace w') = 1%nat
             /\ storage w' = storage scenario_fresh.
Proof. eexists. split; [vm_compute; reflexivity|]. by vm_compute. Qed.

(** C5: a fetch that succeeds puts the new payload and its timestamp in
    the store by one write that carries both entries, and when the clock
    does not run backwards the timestamp in the store is not later than
    the clock, at the end of the call and at any time after. *)
Theorem successful_fetch_writes_together w data :
  reliable w = true ->
  monotone w = true ->
  fresh cf (storage w) (sampled w) = false ->
  fetched (next_fetch w) = Some data ->
  exists w' now,
    get cf w = (Normal (Some data), w')
    /\ writes (trace w')
       = writes (trace w) ++ [[(CACHE_KEY, data); (CACHE_TIMESTAMP_KEY, JNum now)]]
    /\ storage w'
       = <[CACHE_TIMESTAMP_KEY := JNum now]> (<[CACHE_KEY := data]> (storage w))
    /\ storage w' !! CACHE_KEY = Some data
    /\ (forall t later,
          storage w' !! CACHE_TIMESTAMP_KEY = Some (JNum t) ->
          clock w' <= later -> t <= later).
Proof.
  intros Hrel Hmono Hf Hn.
  exists (refreshed data w), (sampled w).
  split; [by apply get_refreshes|].
  split; [rewrite trace_refreshed, writes_app by done; reflexivity|].
  split; [reflexivity|].
  split.
  - unfold refreshed. cbn [storage set_storage]. rewrite write_cache_entries.
    rewrite lookup_insert_ne by apply keys_differ. apply lookup_insert_eq.
  - intros t later Ht Hlater.
    unfold refreshed in Ht. cbn [storage set_storage] in Ht.
    rewrite write_cache_entries, lookup_insert_eq in Ht.
    injection Ht as <-.
    pose proof (monotone_attempt _ Hmono). pose proof (monotone_write _ Hmono).
    unfold refreshed, write_tried in Hlater. simpl in Hlater. lia.
Qed.

(** C6: on a cache hit and on the fallback after a failed read or a
    failed fetch, [get] leaves the store as it was and issues no write. *)
Theorem get_store_frame w :
  storage_works (next_storage w) = false
  \/ fresh cf (storage w) (sampled w) = true
  \/ fetched (next_fetch w) = None ->
  storage (get cf w).2 = storage w
  /\ writes (trace (get cf w).2) = writes (trace w).
Proof.
  intros Hpath.
  destruct (next_storage w) as [d|d] eqn:Hs.
  - destruct (fresh cf (storage w) (sampled w)) eqn:Hf.
    + erewrite get_hit by done. cbn [snd]. by rewrite writes_checked.
    + destruct Hpath as [Hw|[?|Hn]]; [done..|].
      erewrite get_fetch_fails by done. rewrite recover_run. cbn [snd].
      by rewrite writes_recovered, writes_attempted.
  - erewrite get_first_read_fails by done. rewrite recover_run. cbn [snd].
    rewrite writes_recovered. simpl. rewrite writes_app. simpl.
    by rewrite app_nil_r.
Qed.

(** C7: with no payload in the store and a fetch that fails, [get]
    returns [undefined] and does not throw. *)
Theorem get_absent_when_nothing w :
  storage w !! CACHE_KEY = None ->
  reliable w = true ->
  fetched (next_fetch w) = None ->
  exists w', get cf w = (Normal undefined, w').
Proof.
  intros HP Hrel Hn.
  destruct (get_without_data cf w Hrel Hn) as (w' & Hget & _).
  exists w'. unfold undefined. by rewrite <- HP.
Qed.

(** C8: a payload cached with timestamp T and asked for at T' with
    T' - T >= 120000 makes [get] fetch once, neither less nor more,
    whatever the network answers. *)
Theorem get_expired_fetches_once w P T :
  storage w !! CACHE_KEY = Some P ->
  storage w !! CACHE_TIMESTAMP_KEY = Some (JNum T) ->
  reliable w = true ->
  120000 <= sampled w - T ->
  fetches (trace (get cf w).2) = S (fetches (trace w)).
Proof.
  intros HP HT Hrel Hage.
  apply get_miss_fetches_once; [by apply reliable_next|].
  rewrite (fresh_number _ _ P T) by done.
  replace (sampled w - T <? CACHE_DURATION) with false; [apply andb_false_r|].
  symmetry. apply Z.ltb_ge. unfold CACHE_DURATION. lia.
Qed.

(** C9: a cached payload that is [null], [false], [0] or the empty
    string, or a cached timestamp 0, makes [get] fetch, inside the
    freshness window as well as outside. *)
Theorem get_falsy_cache_misses w P T :
  storage w !! CACHE_KEY = Some P ->
  storage w !! CACHE_TIMESTAMP_KEY = Some (JNum T) ->
  P = JNull \/ P = JBool false \/ P = JNum 0 \/ P = JStr EmptyString \/ T = 0 ->
  reliable w = true ->
  fresh cf (storage w) (sampled w) = false
  /\ fetches (trace (get cf w).2) = S (fetches (trace w)).
Proof.
  intros HP HT Hfalsy Hrel.
  assert (fresh cf (storage w) (sampled w) = false) as Hf.
  { rewrite (fresh_number _ _ P T) by done.
    destruct Hfalsy as [->|[->|[->|[->| ->]]]]; try done.
    simpl. by rewrite andb_false_r. }
  split; [done|]. apply get_miss_fetches_once; [by apply reliable_next|done].
Qed.

(** C10: the timestamp stored with a fetched payload is the clock value
    [get] sampled before it issued the fetch; when the write is issued the
    fetch has taken its time, so counted from the write the entry is fresh
    for the window less that time. *)
Theorem stored_timestamp_is_sample w data :
  reliable w = true ->
  fresh cf (storage w) (sampled w) = false ->
  fetched (next_fetch w) = Some data ->
  exists w',
    get cf w = (Normal (Some data), w')
    /\ trace w'
       = trace w ++ [EStorageGet [CACHE_KEY; CACHE_TIMESTAMP_KEY]; EDateNow (sampled w);
                     EFetch GITHUB_PROMPTS_URL; EJson;
                     EStorageSet [(CACHE_KEY, data); (CACHE_TIMESTAMP_KEY, JNum (sampled w))]]
    /\ storage w' !! CACHE_TIMESTAMP_KEY = Some (JNum (sampled w))
    /\ let took := attempt_delay (next_fetch w) in
       let issued := sampled w + took in
       forall now',
         json_truthy data = true -> sampled w <> 0 ->
         fresh cf (storage w') now' = (now' - issued <? CACHE_DURATION - took).
Proof.
  intros Hrel Hf Hn.
  exists (refreshed data w).
  split; [by apply get_refreshes|].
  split; [by apply trace_refreshed|].
  assert (storage (refreshed data w) !! CACHE_TIMESTAMP_KEY = Some (JNum (sampled w))) as HT.
  { unfold refreshed. cbn [storage set_storage]. rewrite write_cache_entries.
    apply lookup_insert_eq. }
  assert (storage (refreshed data w) !! CACHE_KEY = Some data) as HP.
  { unfold refreshed. cbn [storage set_storage]. rewrite write_cache_entries.
    rewrite lookup_insert_ne by apply keys_differ. apply lookup_insert_eq. }
  split; [done|].
  intros took issued now' Htruthy Hnz.
  rewrite (fresh_number _ _ data (sampled w)) by done.
  rewrite Htruthy. apply Z.eqb_neq in Hnz. rewrite Hnz. simpl.
  subst issued. destruct (_ <? _) eqn:H1, (_ <? _) eqn:H2; try done; lia.
Qed.

End Claims.

(** ** The properties at work *)

(** The first scenario of the specification: cache empty, the fetch
    gives [{"a":1}] at time 0; the store then holds it with timestamp 0. *)
Example scenario_first_fetch :
  exists w', get no_coercion (world_at ∅ 0 [serves a1]) = (Normal (Some a1), w')
             /\ storage w' = holding a1 0.
Proof. eexists. split; vm_compute; reflexivity. Qed.

(** A server that answers [null] gets [null] cached like any payload. *)
Example null_payload_cached :
  exists w', get no_coercion scenario_boot_null = (Normal (Some JNull), w')
             /\ storage w' = storage scenario_null.
Proof. eexists. split; vm_compute; reflexivity. Qed.

(** When the store itself fails twice, the second failure leaves [get]:
    the assumption of a working store is not idle. *)
Example broken_store_throws :
  (get no_coercion scenario_broken_store).1 = Throw storage_error.
Proof. vm_compute. reflexivity. Qed.

(** After the slow fetch of [scenario_slow] the entry written at 6000
    carries timestamp 1000: a call 116 s after the write misses. *)
Example slow_fetch_shortens_window :
  fresh no_coercion (storage (get no_coercion scenario_slow).2) (6000 + 116000) = false.
Proof. vm_compute. reflexivity. Qed.

(** C1 at [scenario_warm]: [{"a":1}] cached at 1000 and asked for at 61000. *)
Lemma get_fresh_truthy_hit_witness :
  exists w', get no_coercion scenario_warm = (Normal (Some a1), w')
             /\ fetches (trace w') = fetches (trace scenario_warm).
Proof.
  apply (get_fresh_truthy_hit no_coercion scenario_warm a1 1000).
  - vm_compute. reflexivity.
  - vm_compute. reflexivity.
  - reflexivity.
  - lia.
  - reflexivity.
  - vm_compute. reflexivity.
Defined.

(** C1 as it is stated fails: the cached payload [null], written at 1000
    by a fetch that succeeded, is fetched again at 2000, and the call
    returns the new payload. *)
Lemma get_fresh_hit_refuted :
  ~ (forall (cf : Z -> Json -> Z -> bool) (w : World) (P : Json) (T : Z),
        storage w !! CACHE_KEY = Some P ->
        storage w !! CACHE_TIMESTAMP_KEY = Some (JNum T) ->
        reliable w = true ->
        sampled w - T < 120000 ->
        exists w', get cf w = (Normal (Some P), w')
                   /\ fetches (trace w') = fetches (trace w)).
Proof.
  intros H.
  destruct (H no_coercion scenario_null JNull 1000) as (w' & Hget & _).
  - vm_compute. reflexivity.
  - vm_compute. reflexivity.
  - reflexivity.
  - vm_compute. reflexivity.
  - vm_compute in Hget. discriminate Hget.
Qed.

(** C2 at a server that answers 500 while the cache is stale. *)
Lemma get_never_throws_witness :
  reliable scenario_http_500 = true
  /\ (exists v w', get no_coercion scenario_http_500 = (Normal v, w'))
  /\ get no_coercion scenario_http_500
     = (Normal (Some a1),
        mkWorld (holding a1 0) 180020 [] []
                [EStorageGet [CACHE_KEY; CACHE_TIMESTAMP_KEY]; EDateNow 180000;
                 EFetch GITHUB_PROMPTS_URL;
                 EConsoleError "Failed to fetch prompts:"
                               (MkError "Error" "HTTP error! status: 500");
                 EStorageGet [CACHE_KEY]]).
Proof.
  split; [reflexivity|].
  destruct (get_never_throws no_coercion scenario_http_500 eq_refl) as [Hnormal Hcaught].
  split; [exact Hnormal|].
  rewrite Hcaught; [vm_compute; reflexivity | vm_compute; reflexivity | reflexivity].
Defined.

(** C3 at the stale scenario of the specification. *)
Lemma get_serves_stale_witness :
  exists w', get no_coercion scenario_stale = (Normal (Some a1), w').
Proof.
  apply (get_serves_stale no_coercion scenario_stale a1).
  - vm_compute. reflexivity.
  - reflexivity.
  - reflexivity.
Defined.

(** C4 as it is stated fails: the call does go to the network. *)
Lemma scenario_fresh_attempts_network :
  ~ (exists (cf : Z -> Json -> Z -> bool) w',
        get cf scenario_fresh = (Normal (Some a1), w')
        /\ fetches (trace w') = fetches (trace scenario_fresh)).
Proof.
  intros (cf & w' & Hget & Hfetches).
  vm_compute in Hget. injection Hget as <-.
  vm_compute in Hfetches. discriminate Hfetches.
Qed.

(** C5 at [scenario_slow]. *)
Lemma successful_fetch_writes_together_witness :
  exists w' now,
    get no_coercion scenario_slow = (Normal (Some a1), w')
    /\ writes (trace w')
       = writes (trace scenario_slow)
         ++ [[(CACHE_KEY, a1); (CACHE_TIMESTAMP_KEY, JNum now)]]
    /\ storage w'
       = <[CACHE_TIMESTAMP_KEY := JNum now]> (<[CACHE_KEY := a1]> (storage scenario_slow))
    /\ storage w' !! CACHE_KEY = Some a1
    /\ (forall t later,
          storage w' !! CACHE_TIMESTAMP_KEY = Some (JNum t) ->
          clock w' <= later -> t <= later).
Proof.
  apply (successful_fetch_writes_together no_coercion scenario_slow a1); reflexivity.
Defined.

(** C6 at [scenario_warm], a hit. *)
Lemma get_store_frame_witness :
  storage (get no_coercion scenario_warm).2 = storage scenario_warm
  /\ writes (trace (get no_coercion scenario_warm).2) = writes (trace scenario_warm).
Proof.
  apply (get_store_frame no_coercion scenario_warm).
  right. left. vm_compute. reflexivity.
Defined.

(** C7 at the last scenario of the specification. *)
Lemma get_absent_when_nothing_witness :
  exists w', get no_coercion scenario_nothing = (Normal undefined, w').
Proof.
  apply (get_absent_when_nothing no_coercion scenario_nothing); reflexivity.
Defined.

(** The entry of [scenario_expired], truthy and stamped 1000, is served
    without a fetch at 100000: only its age makes the call at 200000
    go to the network. *)
Example expired_entry_was_fresh :
  fetches (trace (get no_coercion (set_clock 100000 scenario_expired)).2) = 0%nat
  /\ (get no_coercion (set_clock 100000 scenario_expired)).1 = Normal (Some a1).
Proof. split; vm_compute; reflexivity. Qed.

(** C8 at [scenario_expired]: a truthy payload with the nonzero
    timestamp 1000, asked for at 200000. *)
Lemma get_expired_fetches_once_witness :
  120000 <= sampled scenario_expired - 1000
  /\ fetches (trace (get no_coercion scenario_expired).2)
     = S (fetches (trace scenario_expired)).
Proof.
  split; [vm_compute; discriminate|].
  apply (get_expired_fetches_once no_coercion scenario_expired a1 1000).
  - vm_compute. reflexivity.
  - vm_compute. reflexivity.
  - reflexivity.
  - vm_compute. discriminate.
Defined.

(** C9 at [scenario_null], one second after [null] was cached. *)
Lemma get_falsy_cache_misses_witness :
  fresh no_coercion (storage scenario_null) (sampled scenario_null) = false
  /\ fetches (trace (get no_coercion scenario_null).2) = S (fetches (trace scenario_null)).
Proof.
  apply (get_falsy_cache_misses no_coercion scenario_null JNull 1000).
  - vm_compute. reflexivity.
  - vm_compute. reflexivity.
  - left. reflexivity.
  - reflexivity.
Defined.

(** C10 at [scenario_slow]: sampled at 1000, written at 6000. *)
Lemma stored_timestamp_is_sample_witness :
  exists w',
    get no_coercion scenario_slow = (Normal (Some a1), w')
    /\ storage w' !! CACHE_TIMESTAMP_KEY = Some (JNum 1000)
    /\ forall now', fresh no_coercion (storage w') now' = (now' - 6000 <? 120000 - 5000).
Proof.
  destruct (stored_timestamp_is_sample no_coercion scenario_slow a1)
    as (w' & Hget & _ & Hstored & Hwindow); [reflexivity..|].
  exists w'. split; [exact Hget|]. split; [exact Hstored|].
  intros now'. apply Hwindow; [reflexivity | discriminate].
Defined.

(** ** More on [get]: every path at once *)

Lemma get_path_run cf w : get_path cf w (get cf w).
Proof.
  destruct (next_storage w) as [d|d] eqn:Hs.
  - destruct (fresh cf (storage w) (sampled w)) eqn:Hf.
    + erewrite get_hit by done. by eapply path_hit.
    + destruct (fetched (next_fetch w)) as [data|] eqn:Hn.
      * destruct (next_storage (attempted w)) as [d2|d2] eqn:Hs2.
        -- erewrite get_fetch_stored by done. by eapply path_stored.
        -- erewrite get_store_fails by done. by eapply path_store_fails.
      * erewrite get_fetch_fails by done. by eapply path_fetch_fails.
  - erewrite get_first_read_fails by done. by eapply path_read_fails.
Qed.

Lemma storage_refreshed data w :
  storage (refreshed data w)
  = <[CACHE_TIMESTAMP_KEY := JNum (sampled w)]> (<[CACHE_KEY := data]> (storage w)).
Proof. reflexivity. Qed.

Lemma fetches_refreshed data w :
  fetches (trace (refreshed data w)) = S (fetches (trace w)).
Proof.
  unfold refreshed. cbn [trace set_storage].
  rewrite trace_write_tried, fetches_app, fetches_attempted. simpl. lia.
Qed.

Lemma fetches_write_tried data w :
  fetches (trace (write_tried data w)) = S (fetches (trace w)).
Proof. rewrite trace_write_tried, fetches_app, fetches_attempted. simpl. lia. Qed.

Lemma writes_write_tried data w :
  writes (trace (write_tried data w))
  = writes (trace w) ++ [cache_entries data (sampled w)].
Proof. by rewrite trace_write_tried, writes_app, writes_attempted. Qed.

Lemma recover_fst e w :
  (recover e w).1
  = match next_storage w with
    | StorageOk _ => Normal (storage w !! CACHE_KEY)
    | StorageFails _ => Throw storage_error
    end.
Proof. by rewrite recover_run. Qed.

Lemma recover_snd e w : (recover e w).2 = recovered e w.
Proof. by rewrite recover_run. Qed.

(** Case analysis on what the storage read of the catch block meets. *)
Ltac case_reread :=
  match goal with
  | |- context [match next_storage ?x with _ => _ end] =>
      let Hs1 := fresh "Hreread" in
      destruct (next_storage x) eqn:Hs1
  end.

Section Beyond.

Variable cf : Z -> Json -> Z -> bool.

(** X1: [get] touches no entry of the store other than the payload and
    the timestamp: every other key reads the same after the call, on
    every path. *)
Theorem get_other_keys_untouched w (k : string) :
  k <> CACHE_KEY ->
  k <> CACHE_TIMESTAMP_KEY ->
  storage (get cf w).2 !! k = storage w !! k.
Proof.
  intros HK HT.
  destruct (get_path_run cf w); rewrite ?recover_snd; try reflexivity.
  cbn [snd]. rewrite storage_refreshed.
  by rewrite !lookup_insert_ne by done.
Qed.

(** X2: whenever [get] returns, the value it returns is what the store
    holds under the payload key when the call is over. *)
Theorem get_returns_cache_content w v :
  (get cf w).1 = Normal v ->
  storage (get cf w).2 !! CACHE_KEY = v.
Proof.
  destruct (get_path_run cf w) as [d Hs|d Hs Hf|d Hs Hf Hn|d data d2 Hs Hf Hn Hs2|d data d2 Hs Hf Hn Hs2];
    rewrite ?recover_snd, ?recover_fst; cbn [fst snd].
  - case_reread; [|done]. intros [= <-]. reflexivity.
  - intros [= <-]. reflexivity.
  - case_reread; [|done]. intros [= <-]. reflexivity.
  - intros [= <-]. rewrite storage_refreshed.
    rewrite lookup_insert_ne by apply keys_differ. apply lookup_insert_eq.
  - case_reread; [|done]. intros [= <-]. reflexivity.
Qed.

(** X3: one call makes at most one fetch and at most one write, and it
    writes only when it has fetched. *)
Theorem get_at_most_one_fetch_and_write w :
  (fetches (trace (get cf w).2) <= S (fetches (trace w)))%nat
  /\ (length (writes (trace (get cf w).2)) <= S (length (writes (trace w))))%nat
  /\ (writes (trace (get cf w).2) <> writes (trace w) ->
      fetches (trace (get cf w).2) = S (fetches (trace w))).
Proof.
  destruct (get_path_run cf w); rewrite ?recover_snd; cbn [snd];
    rewrite ?fetches_recovered, ?writes_recovered, ?fetches_checked, ?writes_checked,
      ?fetches_attempted, ?writes_attempted, ?fetches_write_tried, ?writes_write_tried,
      ?fetches_refreshed.
  - unfold after_storage. simpl. rewrite fetches_app, writes_app. simpl.
    rewrite app_nil_r, Nat.add_0_r. split; [lia|]. split; [lia|done].
  - split; [lia|]. split; [lia|done].
  - split; [lia|]. split; [lia|done].
  - unfold refreshed. cbn [trace set_storage]. rewrite writes_write_tried, length_app.
    simpl. split; [lia|]. split; [lia|done].
  - rewrite length_app. simpl. split; [lia|]. split; [lia|done].
Qed.

(** X4: the only error that leaves [get] is the error of the storage
    read in the catch block: whatever the fetch, the status check or the
    parse raised is not what the caller sees, and the store is then as it
    was before the call. *)
Theorem get_throws_only_storage_error w e :
  (get cf w).1 = Throw e ->
  e = storage_error
  /\ reliable w = false
  /\ storage (get cf w).2 = storage w
  /\ exists logged_error, EConsoleError "Failed to fetch prompts:" logged_error
                          ∈ trace (get cf w).2.
Proof.
  assert (Hunrel : forall (w1 : World) d1,
             storage_script w1 = tail (storage_script w) ->
             next_storage w1 = StorageFails d1 -> reliable w = false).
  { intros w1 d1 Hscript Hbad. destruct (reliable w) eqn:Hrel; [|done].
    pose proof (reliable_next _ (reliable_tail w w1 Hrel Hscript)) as Hgood.
    by rewrite Hbad in Hgood. }
  assert (Hlog : forall e1 w1, exists le,
             EConsoleError "Failed to fetch prompts:" le ∈ trace (recovered e1 w1)).
  { intros e1 w1. exists e1. rewrite trace_recovered. set_solver. }
  destruct (get_path_run cf w) as [d Hs|d Hs Hf|d Hs Hf Hn|d data d2 Hs Hf Hn Hs2|d data d2 Hs Hf Hn Hs2];
    rewrite ?recover_snd, ?recover_fst; cbn [fst snd]; try done.
  - case_reread; [done|]. intros [= <-].
    split; [done|]. split; [|by split].
    eapply Hunrel; [|eassumption]. done.
  - case_reread; [done|]. intros [= <-].
    split; [done|]. split; [|by split].
    eapply Hunrel; [|eassumption]. done.
  - case_reread; [done|]. intros [= <-].
    split; [done|]. split; [|by split].
    by eapply (Hunrel (attempted w)).
Qed.

(** X5: when the fetch brought a payload back but the write of it
    fails, the payload is dropped: [get] answers with what the cache held
    before (possibly nothing), and the store is as it was. *)
Theorem get_failed_write_serves_old_cache w data d1 d2 rest :
  storage_script w = StorageOk d1 :: StorageFails d2 :: rest ->
  storage_works (hd (StorageOk 0) rest) = true ->
  fresh cf (storage w) (sampled w) = false ->
  fetched (next_fetch w) = Some data ->
  (get cf w).1 = Normal (storage w !! CACHE_KEY)
  /\ storage (get cf w).2 = storage w
  /\ writes (trace (get cf w).2)
     = writes (trace w) ++ [[(CACHE_KEY, data); (CACHE_TIMESTAMP_KEY, JNum (sampled w))]].
Proof.
  intros Hscript Hthird Hf Hn.
  assert (next_storage w = StorageOk d1) as Hs by (unfold next_storage; by rewrite Hscript).
  assert (next_storage (attempted w) = StorageFails d2) as Hs2.
  { unfold next_storage, attempted. simpl. by rewrite Hscript. }
  erewrite get_store_fails by done. rewrite recover_run. cbn [fst snd].
  assert (next_storage (write_tried data w) = hd (StorageOk 0) rest) as ->.
  { unfold next_storage, write_tried, after_storage, attempted. simpl. by rewrite Hscript. }
  destruct (hd (StorageOk 0) rest); [|done].
  split; [done|]. split; [done|].
  by rewrite writes_recovered, writes_write_tried.
Qed.

(** X6: when the first storage read fails, [get] does not go to the
    network at all: it reads the cache again and answers with what is
    there, fresh, stale or absent. *)
Theorem get_read_failure_skips_network w d1 rest :
  storage_script w = StorageFails d1 :: rest ->
  storage_works (hd (StorageOk 0) rest) = true ->
  (get cf w).1 = Normal (storage w !! CACHE_KEY)
  /\ fetches (trace (get cf w).2) = fetches (trace w)
  /\ storage (get cf w).2 = storage w.
Proof.
  intros Hscript Hsecond.
  assert (next_storage w = StorageFails d1) as Hs by (unfold next_storage; by rewrite Hscript).
  erewrite get_first_read_fails by done. rewrite recover_run. cbn [fst snd].
  assert (next_storage (after_storage d1 (EStorageGet [CACHE_KEY; CACHE_TIMESTAMP_KEY]) w)
          = hd (StorageOk 0) rest) as ->.
  { unfold next_storage, after_storage. simpl. by rewrite Hscript. }
  destruct (hd (StorageOk 0) rest); [|done].
  split; [done|]. split; [|done].
  rewrite fetches_recovered. unfold after_storage. simpl.
  rewrite fetches_app. simpl. lia.
Qed.

(** X7: two calls in a row.  After a call that fetched and stored a
    truthy payload, a second call that samples the clock less than
    120000 ms after the first sample returns that payload without a
    fetch, whatever the network would answer. *)
Theorem get_after_refresh_hits w data c :
  reliable w = true ->
  fresh cf (storage w) (sampled w) = false ->
  fetched (next_fetch w) = Some data ->
  json_truthy data = true ->
  sampled w <> 0 ->
  sampled (set_clock c (get cf w).2) - sampled w < 120000 ->
  exists w2, get cf (set_clock c (get cf w).2) = (Normal (Some data), w2)
             /\ fetches (trace w2) = fetches (trace (get cf w).2).
Proof.
  intros Hrel Hf Hn Htruthy Hnz Hage.
  pose proof (get_refreshes cf w data Hrel Hf Hn) as Hget.
  rewrite Hget in *. cbn [snd] in *.
  set (w1 := set_clock c (refreshed data w)) in *.
  assert (reliable w1 = true) as Hrel1.
  { apply (reliable_tail (attempted w)); [by apply (reliable_tail w)|done]. }
  pose proof (storage_works_ok _ (reliable_next _ Hrel1)) as Hs1.
  assert (storage w1 !! CACHE_KEY = Some data) as HP.
  { unfold w1. cbn [storage set_clock]. rewrite storage_refreshed.
    rewrite lookup_insert_ne by apply keys_differ. apply lookup_insert_eq. }
  assert (storage w1 !! CACHE_TIMESTAMP_KEY = Some (JNum (sampled w))) as HT.
  { unfold w1. cbn [storage set_clock]. rewrite storage_refreshed.
    apply lookup_insert_eq. }
  exists (checked w1). split.
  - rewrite <- HP. eapply get_hit; [done|].
    rewrite (fresh_number _ _ data (sampled w)) by done.
    rewrite Htruthy. apply Z.eqb_neq in Hnz. rewrite Hnz. simpl.
    apply Z.ltb_lt. unfold CACHE_DURATION. lia.
  - by rewrite fetches_checked.
Qed.

(** X8: a fetch that fails does not restamp the entry: a call on an
    expired entry that falls back to it leaves the store as it was, and
    the next call, made when the clock has not gone back behind the
    expiry, goes to the network again. *)
Theorem get_offline_retries w P T c :
  storage w !! CACHE_KEY = Some P ->
  storage w !! CACHE_TIMESTAMP_KEY = Some (JNum T) ->
  reliable w = true ->
  120000 <= sampled w - T ->
  fetched (next_fetch w) = None ->
  120000 <= sampled (set_clock c (get cf w).2) - T ->
  (get cf w).1 = Normal (Some P)
  /\ fetches (trace (get cf (set_clock c (get cf w).2)).2) = S (S (fetches (trace w))).
Proof.
  intros HP HT Hrel Hage Hn Hage1.
  pose proof (storage_works_ok _ (reliable_next _ Hrel)) as Hs.
  assert (fresh cf (storage w) (sampled w) = false) as Hf.
  { rewrite (fresh_number _ _ P T) by done.
    replace (sampled w - T <? CACHE_DURATION) with false; [apply andb_false_r|].
    symmetry. apply Z.ltb_ge. unfold CACHE_DURATION. lia. }
  assert (reliable (attempted w) = true) as Hrel_a by by apply (reliable_tail w).
  pose proof (get_fetch_fails cf w _ Hs Hf Hn) as Hget.
  rewrite recover_reliable in Hget by done.
  rewrite Hget in *. cbn [fst snd] in *.
  split; [by rewrite <- HP|].
  set (w1 := set_clock c (recovered (failure (next_fetch w)) (attempted w))) in *.
  assert (reliable w1 = true) as Hrel1 by by apply (reliable_tail (attempted w)).
  rewrite get_miss_fetches_once.
  - unfold w1. cbn [trace set_clock]. by rewrite fetches_recovered, fetches_attempted.
  - by apply reliable_next.
  - rewrite (fresh_number _ _ P T) by done.
    replace (sampled w1 - T <? CACHE_DURATION) with false; [apply andb_false_r|].
    symmetry. apply Z.ltb_ge. unfold CACHE_DURATION. lia.
Qed.

(** X9: a payload without a timestamp, or a timestamp without a payload,
    is no hit: with either key missing from the store [get] fetches. *)
Theorem get_missing_key_misses w :
  storage w !! CACHE_KEY = None \/ storage w !! CACHE_TIMESTAMP_KEY = None ->
  reliable w = true ->
  fetches (trace (get cf w).2) = S (fetches (trace w)).
Proof.
  intros Hmissing Hrel.
  apply get_miss_fetches_once; [by apply reliable_next|].
  unfold fresh. destruct Hmissing as [-> | ->]; simpl; [done|].
  by rewrite andb_false_r.
Qed.

End Beyond.

(** X1 at [scenario_other_entry]: the entry of another feature survives a
    call that fetches and stores. *)
Lemma get_other_keys_untouched_witness :
  storage (get no_coercion scenario_other_entry).2 !! "settings" = Some (JBool true)
  /\ storage (get no_coercion scenario_other_entry).2 !! CACHE_KEY = Some b2.
Proof.
  split; [|vm_compute; reflexivity].
  rewrite (get_other_keys_untouched no_coercion scenario_other_entry "settings").
  - vm_compute. reflexivity.
  - discriminate.
  - discriminate.
Defined.

(** X2 at [scenario_warm]. *)
Lemma get_returns_cache_content_witness :
  storage (get no_coercion scenario_warm).2 !! CACHE_KEY = Some a1.
Proof.
  apply (get_returns_cache_content no_coercion scenario_warm (Some a1)).
  vm_compute. reflexivity.
Defined.

(** X4 at [scenario_broken_store]. *)
Lemma get_throws_only_storage_error_witness :
  (get no_coercion scenario_broken_store).1 = Throw storage_error
  /\ storage (get no_coercion scenario_broken_store).2 = storage scenario_broken_store.
Proof.
  assert ((get no_coercion scenario_broken_store).1 = Throw storage_error) as H
    by (vm_compute; reflexivity).
  split; [exact H|].
  exact (proj1 (proj2 (proj2
    (get_throws_only_storage_error no_coercion scenario_broken_store storage_error H)))).
Defined.

(** X5 at [scenario_write_fails]: the server had [{"b":2}], the caller
    gets the expired [{"a":1}]. *)
Lemma get_failed_write_serves_old_cache_witness :
  (get no_coercion scenario_write_fails).1 = Normal (Some a1).
Proof.
  destruct (get_failed_write_serves_old_cache no_coercion scenario_write_fails b2 0 0
              [StorageOk 0]) as [H _]; [reflexivity..|].
  rewrite H. vm_compute. reflexivity.
Defined.

(** X6 at [scenario_read_fails]: the entry is expired and the server is
    up, and still no fetch is made. *)
Lemma get_read_failure_skips_network_witness :
  (get no_coercion scenario_read_fails).1 = Normal (Some a1)
  /\ fetches (trace (get no_coercion scenario_read_fails).2) = 0%nat.
Proof.
  destruct (get_read_failure_skips_network no_coercion scenario_read_fails 0 [])
    as (H1 & H2 & _); [reflexivity..|].
  split; [rewrite H1; vm_compute; reflexivity | rewrite H2; reflexivity].
Defined.

(** X7 at [scenario_slow]: sampled at 1000, asked again at 100000. *)
Lemma get_after_refresh_hits_witness :
  exists w2,
    get no_coercion (set_clock 100000 (get no_coercion scenario_slow).2)
    = (Normal (Some a1), w2)
    /\ fetches (trace w2) = fetches (trace (get no_coercion scenario_slow).2).
Proof.
  apply (get_after_refresh_hits no_coercion scenario_slow a1 100000).
  - reflexivity.
  - reflexivity.
  - reflexivity.
  - reflexivity.
  - discriminate.
  - vm_compute. reflexivity.
Defined.

(** X8 at [scenario_stale]: two calls while offline, two fetches. *)
Lemma get_offline_retries_witness :
  (get no_coercion scenario_stale).1 = Normal (Some a1)
  /\ fetches (trace (get no_coercion (set_clock 190000 (get no_coercion scenario_stale).2)).2)
     = 2%nat.
Proof.
  apply (get_offline_retries no_coercion scenario_stale a1 0 190000).
  - vm_compute. reflexivity.
  - vm_compute. reflexivity.
  - reflexivity.
  - vm_compute. discriminate.
  - reflexivity.
  - vm_compute. discriminate.
Defined.

(** X9 at [scenario_other_entry], which has a payload and no timestamp. *)
Lemma get_missing_key_misses_witness :
  fetches (trace (get no_coercion scenario_other_entry).2) = 1%nat.
Proof.
  apply (get_missing_key_misses no_coercion scenario_other_entry).
  - right. vm_compute. reflexivity.
  - reflexivity.
Defined.
